(** * arango3-doc-manager: the ArangoDB target of a MongoDB change feed

    A shallow embedding of [mongo_connector/doc_managers/arango3_doc_manager.py]
    and the properties of its dual-write protocol: key encoding, upsert,
    update, bulk load, remove and the two recovery queries.

    Modelling conventions.
    - A Python [dict] with string keys is a [gmap string Value]; the BSON
      values that occur are listed in [Value].
    - An ArangoDB collection is the list of its documents in storage order;
      the primary key [_key] is unique because [insert] rejects a key that is
      already there, which is a lemma here and not a property of the type.
    - A method of [DocManager] is a computation in a state-and-exception
      monad over the [World] (the server and the logger).  A Python exception
      keeps the side effects made before it was raised.
    - The system attributes [_id] and [_rev] that ArangoDB adds to every
      stored document are left out, as are its naming rules for databases,
      collections and keys: every name is taken to be acceptable.
    - The metadata collection [mongodb_meta.mongodb_data] is a component of
      its own, next to the databases that are replicated into.  A namespace
      or a command that names the database [mongodb_meta] itself is outside
      the model: on the server it would reach the metadata collection, and
      nothing is stated here about such a call.
    - [upsert] leaves its mark on the dict it is given, and the model keeps
      that dict next to the world.  [update] and [bulk_upsert] write to the
      dicts they are given too; what is left in those is not followed. *)

From Stdlib Require Import Ascii.
From stdpp Require Import base strings list gmap pretty.

Set Warnings "-register-all".
Open Scope Z_scope.

(** ** Python values *)

Inductive Value :=
  | VNone
  | VBool (b : bool)
  | VInt (z : Z)
  | VStr (s : string)
  | VObjectId (hex : string)
  | VDict (d : gmap string Value).

Abbreviation Doc := (gmap string Value).

(** [bool(v)] *)
Definition truthy (v : option Value) : bool :=
  match v with
  | None | Some VNone => false
  | Some (VBool b) => b
  | Some (VInt z) => negb (z =? 0)
  | Some (VStr s) => negb (String.eqb s EmptyString)
  | Some (VObjectId _) => true
  | Some (VDict d) => negb (bool_decide (d = ∅))
  end.

(** [c in s] for a one-character needle *)
Fixpoint str_contains (c : Ascii.ascii) (s : string) : bool :=
  match s with
  | EmptyString => false
  | String a s' => if Ascii.eqb a c then true else str_contains c s'
  end.

(** [s.split(sep, 1)] *)
Fixpoint split_once (sep : Ascii.ascii) (s : string) : list string :=
  match s with
  | EmptyString => [EmptyString]
  | String a s' =>
      if Ascii.eqb a sep then [EmptyString; s']
      else match split_once sep s' with
           | hd :: tl => String a hd :: tl
           | [] => []
           end
  end.

(** ** Exceptions and the monad *)

Inductive Exn :=
  | KeyError
  | ValueError
  | TypeError
  | AttributeError
  | OperationFailed
  | DatabaseCreateError
  | DatabaseDeleteError
  | CollectionListError
  | CollectionCreateError
  | CollectionDeleteError
  | CollectionRenameError
  | DocumentGetError
  | DocumentInError
  | DocumentInsertError
  | DocumentReplaceError
  | DocumentDeleteError.

Global Instance Exn_eq_dec : EqDecision Exn.
Proof. solve_decision. Defined.

Inductive Result (A : Type) :=
  | Ok (a : A)
  | Raise (e : Exn).
Arguments Ok {A} a.
Arguments Raise {A} e.

Definition M (S A : Type) : Type := S → Result A * S.

Definition ret {S A} (a : A) : M S A := λ s, (Ok a, s).
Definition raise {S A} (e : Exn) : M S A := λ s, (Raise e, s).
Definition bind {S A B} (m : M S A) (k : A → M S B) : M S B :=
  λ s, match m s with
       | (Ok a, s') => k a s'
       | (Raise e, s') => (Raise e, s')
       end.
Definition gets {S A} (f : S → A) : M S A := λ s, (Ok (f s), s).
Definition modify {S} (f : S → S) : M S unit := λ s, (Ok tt, f s).

Declare Scope py_scope.
Delimit Scope py_scope with py.
Bind Scope py_scope with M.
Notation "'let*' x ':=' c1 'in' c2" := (bind c1 (λ x, c2))
  (at level 10, x pattern, c1 at level 200, c2 at level 200) : py_scope.
Notation "c1 ;; c2" := (bind c1 (λ _, c2))
  (at level 100, c2 at level 200, right associativity) : py_scope.
Open Scope py_scope.

(** [a, b = xs]: unpacking a list into two names *)
Definition unpack2 {S A} (xs : list A) : M S (A * A) :=
  match xs with
  | [a; b] => ret (a, b)
  | _ => raise ValueError
  end.

(** The decorator [wrap_exceptions]: the two mapped exception types are
    re-raised as [errors.OperationFailed], every other one passes through. *)
Definition wrap_exn (e : Exn) : Exn :=
  match e with
  | DatabaseCreateError | DocumentInsertError => OperationFailed
  | _ => e
  end.

Definition wrap_exceptions {S A} (m : M S A) : M S A :=
  λ s, match m s with
       | (Raise e, s') => (Raise (wrap_exn e), s')
       | r => r
       end.

(** ** The python-arango client: one collection

    The calls the doc manager makes on a collection handle, with the
    defaults of python-arango 3.x where the source passes none:
    [insert] raises on a key that exists, [replace] and [delete] raise on a
    key that does not ([delete] unless [ignore_missing] is set, and the
    source never sets it), [import_bulk] with [on_duplicate="replace"]
    overwrites. *)

Class Keyed (A : Type) := key_of : A → string.

Section Collection.
Context {A : Type} `{Keyed A}.

Definition has_key (k : string) (x : A) : bool := String.eqb (key_of x) k.

Definition coll_has (k : string) (c : list A) : bool := existsb (has_key k) c.

Definition coll_find (p : A → bool) (c : list A) : list A := List.filter p c.

Definition put (x : A) (c : list A) : list A :=
  map (λ y, if has_key (key_of x) y then x else y) c.

Definition coll_insert (x : A) (c : list A) : Result (list A) :=
  if coll_has (key_of x) c then Raise DocumentInsertError else Ok (c ++ [x]).

Definition coll_replace (x : A) (c : list A) : Result (list A) :=
  if coll_has (key_of x) c then Ok (put x c) else Raise DocumentReplaceError.

Definition coll_delete (k : string) (ignore_missing : bool) (c : list A)
  : Result (list A) :=
  if coll_has k c then Ok (List.filter (λ y, negb (has_key k y)) c)
  else if ignore_missing then Ok c
  else Raise DocumentDeleteError.

Definition import_one (c : list A) (x : A) : list A :=
  if coll_has (key_of x) c then put x c else c ++ [x].

Definition coll_import_bulk (documents : list A) (c : list A) : list A :=
  fold_left import_one documents c.

End Collection.


(** ** Stored data *)

Definition unique_key : string := "_key".

(** A metadata record, the dict with the fields [_key], [_ts] and [ns]. *)
Record Meta := mkMeta { m_key : string; m_ts : Z; m_ns : string }.

Global Instance Meta_eq_dec : EqDecision Meta.
Proof. solve_decision. Defined.

Global Instance Meta_keyed : Keyed Meta := m_key.

Definition doc_key (d : Doc) : string :=
  match d !! unique_key with
  | Some (VStr k) => k
  | _ => EmptyString
  end.

Global Instance Doc_keyed : Keyed Doc := doc_key.

(** The server and the logger.  [databases] are the databases that are
    replicated into, [meta_collection] is the collection [mongodb_data] of
    the database [mongodb_meta], which [__init__] makes. *)
Record World := mkWorld {
  databases : gmap string (gmap string (list Doc));
  meta_collection : list Meta;
  log : list string
}.

Definition set_databases (f : gmap string (gmap string (list Doc)) →
                              gmap string (gmap string (list Doc)))
  (w : World) : World :=
  mkWorld (f (databases w)) (meta_collection w) (log w).

Definition set_meta (f : list Meta → list Meta) (w : World) : World :=
  mkWorld (databases w) (f (meta_collection w)) (log w).

Definition LOG_error (msg : string) : M World unit :=
  modify (λ w, mkWorld (databases w) (meta_collection w) (log w ++ [msg])).

Definition collection_of (db coll : string) (w : World) : option (list Doc) :=
  databases w !! db ≫= (λ colls, colls !! coll).

Definition set_collection (db coll : string) (c : list Doc) (w : World) : World :=
  set_databases (alter (insert coll c) db) w.

(** ** The python-arango client: server, databases and collection handles

    A handle is a name; a call through the handle of a database or of a
    collection that does not exist raises the error of that call. *)

Definition arango_databases : M World (gset string) :=
  gets (λ w, dom (databases w)).

Definition create_database (name : string) : M World string :=
  let* dbs := arango_databases in
  if bool_decide (name ∈ dbs) then raise DatabaseCreateError
  else modify (set_databases (insert name ∅)) ;; ret name.

Definition delete_database (name : string) : M World unit :=
  let* dbs := arango_databases in
  if bool_decide (name ∈ dbs) then modify (set_databases (delete name))
  else raise DatabaseDeleteError.

Definition collections (database : string) : M World (gset string) :=
  let* colls := gets (λ w, databases w !! database) in
  match colls with
  | Some colls => ret (dom colls)
  | None => raise CollectionListError
  end.

Definition create_collection (database coll : string) : M World unit :=
  let* colls := gets (λ w, databases w !! database) in
  match colls with
  | Some colls =>
      if bool_decide (coll ∈ dom colls) then raise CollectionCreateError
      else modify (set_collection database coll [])
  | None => raise CollectionCreateError
  end.

Definition delete_collection (database coll : string) : M World unit :=
  let* c := gets (collection_of database coll) in
  match c with
  | Some _ => modify (set_databases (alter (delete coll) database))
  | None => raise CollectionDeleteError
  end.

Definition rename (database coll new_name : string) : M World unit :=
  let* c := gets (collection_of database coll) in
  let* taken := gets (collection_of database new_name) in
  match c, taken with
  | Some docs, None =>
      modify (set_databases (alter (λ colls, <[new_name:=docs]> (delete coll colls))
                                   database))
  | _, _ => raise CollectionRenameError
  end.

(** A call on the handle of a document collection. *)
Definition on_collection {A} (database coll : string) (err : Exn)
  (f : list Doc → Result (A * list Doc)) : M World A :=
  let* c := gets (collection_of database coll) in
  match c with
  | None => raise err
  | Some docs =>
      match f docs with
      | Ok (a, docs') => modify (set_collection database coll docs') ;; ret a
      | Raise e => raise e
      end
  end.

Definition written (r : Result (list Doc)) : Result (unit * list Doc) :=
  match r with
  | Ok docs => Ok (tt, docs)
  | Raise e => Raise e
  end.

Definition doc_find (database coll : string) (p : Doc → bool) : M World (list Doc) :=
  on_collection database coll DocumentGetError (λ c, Ok (coll_find p c, c)).

Definition doc_has (database coll key : string) : M World bool :=
  on_collection database coll DocumentInError (λ c, Ok (coll_has key c, c)).

Definition doc_insert (database coll : string) (doc : Doc) : M World unit :=
  on_collection database coll DocumentInsertError (λ c, written (coll_insert doc c)).

Definition doc_replace (database coll : string) (doc : Doc) : M World unit :=
  on_collection database coll DocumentReplaceError (λ c, written (coll_replace doc c)).

Definition doc_delete (database coll key : string) : M World unit :=
  on_collection database coll DocumentDeleteError
    (λ c, written (coll_delete key false c)).

Definition doc_import_bulk (database coll : string) (documents : list Doc)
  : M World unit :=
  on_collection database coll DocumentInsertError
    (λ c, Ok (tt, coll_import_bulk documents c)).

(** The same calls on the handle of the metadata collection, which
    [__init__] creates. *)
Definition on_meta {A} (f : list Meta → Result (A * list Meta)) : M World A :=
  let* c := gets meta_collection in
  match f c with
  | Ok (a, c') => modify (set_meta (λ _, c')) ;; ret a
  | Raise e => raise e
  end.

Definition written_meta (r : Result (list Meta)) : Result (unit * list Meta) :=
  match r with
  | Ok c => Ok (tt, c)
  | Raise e => Raise e
  end.

Definition meta_find (p : Meta → bool) : M World (list Meta) :=
  on_meta (λ c, Ok (coll_find p c, c)).

Definition meta_insert (meta : Meta) : M World unit :=
  on_meta (λ c, written_meta (coll_insert meta c)).

Definition meta_replace (meta : Meta) : M World unit :=
  on_meta (λ c, written_meta (coll_replace meta c)).

Definition meta_delete (key : string) : M World unit :=
  on_meta (λ c, written_meta (coll_delete key false c)).

Definition meta_import_bulk (documents : list Meta) : M World unit :=
  on_meta (λ c, Ok (tt, coll_import_bulk documents c)).



(** The filter [{_key: k, ns: namespace}] of [find]. *)
Definition key_ns_filter (k namespace : string) (m : Meta) : bool :=
  String.eqb (m_key m) k && String.eqb (m_ns m) namespace.

(** ** The caller's mapping

    [upsert] works on the dict object it is given.  Its computation runs over
    the pair of that object and the world, so that what is left in the
    object is there to see after the call, also when the call raises. *)

Definition world {A} (m : M World A) : M (Doc * World) A :=
  λ s, match m s.2 with (r, w) => (r, (s.1, w)) end.

Definition doc_get (field : string) : M (Doc * World) Value :=
  gets (λ s, default VNone (s.1 !! field)).

Definition doc_pop (field : string) : M (Doc * World) unit :=
  let* v := gets (λ s, s.1 !! field) in
  match v with
  | Some _ => modify (λ s, (delete field s.1, s.2))
  | None => raise KeyError
  end.

Definition doc_update (field : string) (v : Value) : M (Doc * World) unit :=
  modify (λ s, (<[field:=v]> s.1, s.2)).

Definition this_doc : M (Doc * World) Doc := gets fst.

(** A call that passes [doc] and does not look at the object afterwards. *)
Definition call_with {A} (doc : Doc) (m : M (Doc * World) A) : M World A :=
  λ w, match m (doc, w) with (r, s) => (r, s.2) end.

(** ** The namespace-mapping collaborator *)

(** Modelled from the spec: [CommandHelper] (mongo_connector.command_helper)
    is not among the sources.  The doc manager builds it without a namespace
    configuration, so the namespace-mapping collaborator maps every name to
    itself and filters nothing out. *)
Definition map_namespace (ns : string) : string := ns.

Definition map_db (db : string) : list string := [db].

Definition map_collection (db coll : string) : list string :=
  split_once "."%char (map_namespace (db +:+ "." +:+ coll)).

(** ** The doc manager *)

(** Python's [str] of a dict is its [repr]; it is taken as given. *)
Class PyRepr := dict_repr : gmap string Value → string.

Definition for_each {S A} (xs : list A) (body : A → M S unit) : M S unit :=
  fold_right (λ x rest, body x ;; rest) (ret tt) xs.

(** [v.split(...)] or [db + '.' + v] on the value under a key: the key has to
    be there and the value has to be a string. *)
Definition str_at {S} (not_str : Exn) (v : option Value) : M S string :=
  match v with
  | Some (VStr s) => ret s
  | Some _ => raise not_str
  | None => raise KeyError
  end.

Definition nonempty (s : string) : bool := negb (String.eqb s EmptyString).

Definition nonzero (n : nat) : bool := negb (Nat.eqb n 0).

(** Modelled from the spec: [DocManagerBase.apply_update]
    (mongo_connector.doc_managers.doc_manager_base) is not among the sources.
    A [$set] patch adds or overwrites the named fields, an [$unset] patch
    removes them; field names are taken as they are. *)
Definition patch_fields (v : option Value) : gmap string Value :=
  match v with
  | Some (VDict d) => d
  | _ => ∅
  end.

Definition base_apply_update (doc update_spec : Doc) : Doc :=
  (patch_fields (update_spec !! "$set") ∪ doc) ∖ patch_fields (update_spec !! "$unset").

Section DocManager.
Context `{PyRepr}.

(** [str(v)] *)
Definition py_str (v : Value) : string :=
  match v with
  | VNone => "None"
  | VBool true => "True"
  | VBool false => "False"
  | VInt z => pretty z
  | VStr s => s
  | VObjectId hex => hex
  | VDict d => dict_repr d
  end.

Definition check_if_database_exists (database : string) : M World bool :=
  wrap_exceptions (
    let* dbs := arango_databases in
    if bool_decide (database ∈ dbs) then ret true else ret false).

Definition check_if_collection_exists (database coll : string) : M World bool :=
  wrap_exceptions (
    let* colls := collections database in
    ret (bool_decide (coll ∈ colls))).

Definition apply_update (doc update_spec : Doc) : Doc :=
  if negb (bool_decide (is_Some (update_spec !! "$set")))
     && negb (bool_decide (is_Some (update_spec !! "$unset")))
  then update_spec
  else base_apply_update doc update_spec.

Definition _db_and_collection (namespace : string) : list string :=
  split_once "."%char namespace.

Definition handle_command (doc : Doc) (namespace : string) (timestamp : Z)
  : M World unit :=
  wrap_exceptions (
    let* (db, _) := unpack2 (_db_and_collection namespace) in
    (if truthy (doc !! "dropDatabase") then
       for_each (map_db db) delete_database
     else ret tt) ;;
    (if truthy (doc !! "renameCollection") then
       let* source := str_at AttributeError (doc !! "renameCollection") in
       let source_namespace := map_namespace source in
       let* (source_db, source_coll) :=
         unpack2 (_db_and_collection source_namespace) in
       let* target := str_at AttributeError (doc !! "to") in
       let target_namespace := map_namespace target in
       let* (target_db, target_coll) :=
         unpack2 (_db_and_collection target_namespace) in
       if nonempty source_namespace && nonempty target_coll then
         rename source_db source_coll target_coll
       else ret tt
     else ret tt) ;;
    (if truthy (doc !! "create") then
       let* name := str_at TypeError (doc !! "create") in
       let* (new_db, coll) := unpack2 (map_collection db name) in
       if nonempty new_db then
         let* db_response := check_if_database_exists new_db in
         let* new_db :=
           (if negb db_response then create_database db else ret new_db) in
         let* coll_response := check_if_collection_exists new_db coll in
         if negb coll_response then create_collection new_db coll else ret tt
       else ret tt
     else ret tt) ;;
    (if truthy (doc !! "drop") then
       let* name := str_at TypeError (doc !! "drop") in
       let* (new_db, coll) := unpack2 (map_collection db name) in
       delete_collection new_db coll
     else ret tt)).

Definition pre_process_id (doc_id : Value) : string :=
  let doc_id := py_str doc_id in
  if negb (str_contains "."%char doc_id) then doc_id +:+ "." else doc_id.

(** The result pairs the outcome with what the call leaves in the
    caller's [doc] and in the world. *)
Definition upsert (doc : Doc) (namespace : string) (timestamp : Z)
  : World → Result unit * (Doc * World) :=
  λ w, wrap_exceptions (
    let* (database, coll) := unpack2 (_db_and_collection namespace) in
    let doc_ : Doc := {[ "create" := VStr coll ]} in
    world (handle_command doc_ namespace timestamp) ;;
    let* id := doc_get "_id" in
    let doc_id := pre_process_id id in
    doc_pop "_id" ;;
    let meta := mkMeta doc_id timestamp namespace in
    let* meta_cursor := world (meta_find (key_ns_filter doc_id namespace)) in
    (if nonzero (length meta_cursor) then world (meta_replace meta)
     else world (meta_insert meta)) ;;
    doc_update unique_key (VStr doc_id) ;;
    let* doc := this_doc in
    let* present := world (doc_has database coll doc_id) in
    if present then world (doc_replace database coll doc)
    else world (doc_insert database coll doc)) (doc, w).

(** A call of [upsert] whose argument is not looked at afterwards. *)
Definition call {A} (f : World → Result A * (Doc * World)) : M World A :=
  λ w, match f w with (r, s) => (r, s.2) end.

Definition missing_message (document_id : string) : string :=
  "The document " +:+ document_id +:+
  ", which you are trying to update                 is missing in ArangoDB".

Definition update (document_id : Value) (update_spec : Doc)
  (namespace : string) (timestamp : Z) : M World unit :=
  wrap_exceptions (
    let document_id := pre_process_id document_id in
    let* (db, coll) := unpack2 (_db_and_collection namespace) in
    let meta := mkMeta document_id timestamp namespace in
    let* meta_cursor := meta_find (key_ns_filter document_id namespace) in
    (if nonzero (length meta_cursor) then meta_replace meta else ret tt) ;;
    let* cursor := doc_find db coll (has_key document_id) in
    match cursor with
    | document :: _ =>
        let updated := apply_update document update_spec in
        let updated := <["_id" := VStr document_id]> updated in
        call (upsert updated namespace timestamp)
    | [] => LOG_error (missing_message document_id)
    end).

Definition remove (document_id : Value) (namespace : string) (timestamp : Z)
  : M World unit :=
  wrap_exceptions (
    let document_id := pre_process_id document_id in
    let* (database, coll) := unpack2 (_db_and_collection namespace) in
    meta_delete document_id ;;
    doc_delete database coll document_id).



(** *** Bulk load

    [docs] is an iterator; [next(docs)] takes the head of what is left and
    raises [StopIteration] when nothing is.  The generator
    [iterate_chunks] does not touch the store, so it is the list of the
    chunks it yields together with the way it ends.  Its [while] loop runs
    on fuel: one unit per chunk. *)

Section BulkUpsert.
(** [self.chunk_size] *)
Variable chunk_size : Z.
Variables (namespace : string) (timestamp : Z).

(** How one pass of [for i in range(self.chunk_size)] ends: the range is
    used up, or [next(docs)] raised [StopIteration] at index [i]. *)
Inductive ChunkEnd :=
  | RangeDone
  | StopIteration (i : nat).

Definition bulk_doc (doc : Doc) : Doc :=
  <[unique_key := VStr (pre_process_id (default VNone (doc !! "_id")))]>
    (delete "_id" doc).

Definition bulk_meta_of (doc : Doc) : Meta :=
  mkMeta (pre_process_id (default VNone (doc !! "_id"))) timestamp namespace.

Fixpoint fill_chunk (range : nat) (i : nat) (docs : list Doc)
  (bulk : list Doc) (bulk_meta : list Meta)
  : Result (list Doc * list Meta * list Doc * ChunkEnd) :=
  match range with
  | O => Ok (bulk, bulk_meta, docs, RangeDone)
  | S range' =>
      match docs with
      | [] => Ok (bulk, bulk_meta, [], StopIteration i)
      | doc :: docs' =>
          match doc !! "_id" with
          | None => Raise KeyError
          | Some _ =>
              fill_chunk range' (S i) docs'
                (bulk ++ [bulk_doc doc]) (bulk_meta ++ [bulk_meta_of doc])
          end
      end
  end.

Inductive GenEnd :=
  | Exhausted
  | Raised (e : Exn)
  | StillRunning.

Fixpoint iterate_chunks (fuel : nat) (docs : list Doc)
  : list (list Doc * list Meta) * GenEnd :=
  match fuel with
  | O => ([], StillRunning)
  | S fuel' =>
      match fill_chunk (Z.to_nat chunk_size) 0 docs [] [] with
      | Raise e => ([], Raised e)
      | Ok (bulk, bulk_meta, _, StopIteration i) =>
          (if (0 <? i)%nat then [(bulk, bulk_meta)] else [], Exhausted)
      | Ok (bulk, bulk_meta, docs', RangeDone) =>
          let (chunks, fin) := iterate_chunks fuel' docs' in
          ((bulk, bulk_meta) :: chunks, fin)
      end
  end.

(** What a call has come to: it returned, or its loop is still running
    when the fuel is used up. *)
Inductive Progress :=
  | Returned
  | Running.

Definition bulk_upsert (fuel : nat) (docs : list Doc) : M World Progress :=
  wrap_exceptions (
    let* (dbname, collname) := unpack2 (_db_and_collection namespace) in
    let doc : Doc := {[ "create" := VStr collname ]} in
    handle_command doc namespace timestamp ;;
    let (chunks, fin) := iterate_chunks fuel docs in
    for_each chunks (λ chunk,
      doc_import_bulk dbname collname chunk.1 ;;
      meta_import_bulk chunk.2) ;;
    match fin with
    | Exhausted => ret Returned
    | Raised e => raise e
    | StillRunning => ret Running
    end).
End BulkUpsert.
End DocManager.

(** ** Sample data *)

(** A [repr] to run the examples with: they hold no dict-valued id. *)
Definition sample_repr : PyRepr := λ _, "{...}".

Definition empty_world : World := mkWorld ∅ [] [].

Definition run {A} (m : M World A) (w : World) : World := (m w).2.

(** The world a call of [upsert] leaves, and the caller's dict after it. *)
Definition after_upsert `{PyRepr} (doc : Doc) (namespace : string)
  (timestamp : Z) (w : World) : World :=
  (upsert doc namespace timestamp w).2.2.

Definition doc_after_upsert `{PyRepr} (doc : Doc) (namespace : string)
  (timestamp : Z) (w : World) : Doc :=
  (upsert doc namespace timestamp w).2.1.

Definition test_namespace : string := "test_db.test_collection".

Definition john : Doc := {[ "_id" := VStr "111a"; "name" := VStr "John" ]}.

Definition john_stored : Doc := {[ "_key" := VStr "111a."; "name" := VStr "John" ]}.

(** One document in each of two collections of the database [db]. *)
Definition doc_one : Doc := {[ "_id" := VStr "1" ]}.
Definition doc_two : Doc := {[ "_id" := VStr "2" ]}.

Definition world_a : World :=
  @after_upsert sample_repr doc_one "db.a" 5 empty_world.

Definition world_ab : World :=
  @after_upsert sample_repr doc_two "db.b" 6 world_a.

(** The world after the test's [upsert] of John. *)
Definition world_john : World :=
  @after_upsert sample_repr john test_namespace 5 empty_world.

(** The test of [update]: John under the id [1], then a city set, changed
    and unset. *)
Definition john_one : Doc := {[ "_id" := VStr "1"; "name" := VStr "John" ]}.

Definition world_john_one : World :=
  @after_upsert sample_repr john_one test_namespace 5 empty_world.

Definition set_city (city : string) : Doc :=
  {[ "$set" := VDict {[ "city" := VStr city ]} ]}.

Definition unset_city : Doc := {[ "$unset" := VDict {[ "city" := VInt 1 ]} ]}.

Definition john_one_stored : Doc :=
  {[ "_key" := VStr "1."; "name" := VStr "John" ]}.

Definition john_in (city : string) : Doc :=
  {[ "_key" := VStr "1."; "name" := VStr "John"; "city" := VStr city ]}.

(** A world in which the key [111a.] has its metadata record and no
    document. *)
Definition world_orphan_record : World :=
  mkWorld {[ "test_db" := {[ "test_collection" := [] ]} ]}
    [mkMeta "111a." 5 test_namespace] [].







(** The test of [bulk_upsert]: the documents with the ids [0] to [n - 1]. *)
Definition numbered (n : nat) : list Doc :=
  map (λ i : nat, {[ "_id" := VInt (Z.of_nat i) ]}) (seq 0 n).

(** ** Notions the properties are stated with *)

(** The characters of a string, to say what the code's test [c in s] means. *)
Definition chars (s : string) : list Ascii.ascii := String.list_ascii_of_string s.

(** The documents of a collection; none when it does not exist. *)
Definition stored (db coll : string) (w : World) : list Doc :=
  default [] (collection_of db coll w).

(** The world in which the collection [db.coll], made if need be, holds
    [docs]. *)
Definition with_collection (db coll : string) (docs : list Doc) (w : World)
  : World :=
  set_databases (λ dbs, <[db := <[coll := docs]> (default ∅ (dbs !! db))]> dbs) w.

(** The primary keys of a collection, in storage order. *)
Definition keys {A} `{Keyed A} (c : list A) : list string := map key_of c.


(** The world after the command [{"create": coll}] under the database [db]:
    an empty name skips the command. *)
Definition after_create (db coll : string) (w : World) : World :=
  if nonempty coll && nonempty db
  then with_collection db coll (stored db coll w) w
  else w.

(** No metadata record holds the key [k] for a namespace other than [ns]. *)
Definition no_conflict (k ns : string) (w : World) : Prop :=
  ∀ m, In m (meta_collection w) → m_key m = k → m_ns m = ns.

(** What [upsert] does, step by step, when the namespace names the database
    [db] and the collection [coll]. *)
Definition upsert_outcome `{PyRepr} (db coll : string) (doc : Doc)
  (namespace : string) (timestamp : Z) (w : World) : Result unit * (Doc * World) :=
  let w0 := after_create db coll w in
  match doc !! "_id" with
  | None => (Raise KeyError, (doc, w0))
  | Some id =>
      let k := pre_process_id id in
      let doc1 := delete "_id" doc in
      let meta := mkMeta k timestamp namespace in
      if coll_has k (meta_collection w0)
         && negb (existsb (key_ns_filter k namespace) (meta_collection w0))
      then (Raise OperationFailed, (doc1, w0))
      else
        let w1 := set_meta (λ c, import_one c meta) w0 in
        let doc2 := <[unique_key := VStr k]> doc1 in
        match collection_of db coll w1 with
        | None => (Raise DocumentInError, (doc2, w1))
        | Some docs =>
            (Ok tt, (doc2, set_collection db coll (import_one docs doc2) w1))
        end
  end.

(** The world a successful [upsert] leaves: the stored document and the
    metadata record [m] are each replaced where the key exists and appended
    where it does not. *)
Definition upserted (db coll : string) (doc : Doc) (m : Meta) (w : World) : World :=
  set_meta (λ c, import_one c m)
    (with_collection db coll (import_one (stored db coll w) doc) w).

(** The world after the first write of [update]: the metadata record of the
    key [k] is brought to the new timestamp when the key has a record in the
    namespace. *)
Definition restamped (k ns : string) (t : Z) (w : World) : World :=
  if existsb (key_ns_filter k ns) (meta_collection w)
  then set_meta (put (mkMeta k t ns)) w
  else w.

(** The world a successful [remove] leaves. *)
Definition removed (db coll k : string) (w : World) : World :=
  set_collection db coll
    (List.filter (λ d, negb (has_key k d)) (stored db coll w))
    (set_meta (List.filter (λ m, negb (has_key k m))) w).

(** The namespace of a collection. *)
Definition ns_of (db coll : string) : string := db +:+ "." +:+ coll.



(** What [remove] does, step by step, when the namespace names the database
    [db] and the collection [coll]. *)
Definition remove_outcome `{PyRepr} (db coll : string) (document_id : Value)
  (w : World) : Result unit * World :=
  let k := pre_process_id document_id in
  if coll_has k (meta_collection w) then
    let w1 := set_meta (List.filter (λ m, negb (has_key k m))) w in
    match collection_of db coll w with
    | Some docs =>
        if coll_has k docs then (Ok tt, removed db coll k w)
        else (Raise DocumentDeleteError, w1)
    | None => (Raise DocumentDeleteError, w1)
    end
  else (Raise DocumentDeleteError, w).

(** A sequence cut into chunks of [n] items, the last one shorter when the
    length is not a multiple of [n], and no empty chunk.  One unit of fuel
    per chunk, and one more to see the end. *)
Fixpoint chunked {A} (fuel n : nat) (l : list A) : list (list A) :=
  match fuel with
  | O => []
  | S fuel' =>
      if (n <=? length l)%nat then take n l :: chunked fuel' n (drop n l)
      else match l with
           | [] => []
           | _ => [l]
           end
  end.

(** The world after the bulk import of [docs] and [metas], replacing on a
    duplicate key. *)
Definition bulk_imported (db coll : string) (docs : list Doc)
  (metas : list Meta) (w : World) : World :=
  set_meta (coll_import_bulk metas)
    (with_collection db coll (coll_import_bulk docs (stored db coll w)) w).

(** A document of the input sequence carries an id. *)
Definition has_id (doc : Doc) : Prop := is_Some (doc !! "_id").

(** ** Connection set-up

    [get_host_port], [verify_connection] and [create_connection] run before
    there is a server to talk to.  Their exceptions are of kinds that
    [wrap_exceptions] passes through; they are kept in a type of their own.
    The two environment variables are arguments, [None] for a variable that
    is not set. *)

(** [s.split(sep)] *)
Fixpoint split_all (sep : Ascii.ascii) (s : string) : list string :=
  match s with
  | EmptyString => [EmptyString]
  | String a s' =>
      if Ascii.eqb a sep then EmptyString :: split_all sep s'
      else match split_all sep s' with
           | hd :: tl => String a hd :: tl
           | [] => []
           end
  end.

(** Python's [int] of a string is taken as given; [None] stands for its
    [ValueError]. *)
Class PyInt := py_int : string → option Z.

Inductive ConnectError :=
  | IndexError
  | PortValueError
  | InvalidCredentials
  | ServerConnectionError
  | UnboundLocalError.

(** What [ArangoClient(...)] is built with. *)
Record ArangoClient := mkClient {
  client_host : string;
  client_port : Z;
  client_username : option string;
  client_password : option string
}.

(** [bool(s)] for what [os.environ.get] returns. *)
Definition set_in_env (s : option string) : bool :=
  match s with
  | Some s => nonempty s
  | None => false
  end.

Section Connection.
Context `{PyInt}.
(** [connection.verify()] goes through. *)
Variable verify : ArangoClient → bool.

Definition get_host_port (address : string) : ConnectError + (string * Z) :=
  let address_list := split_all ":"%char address in
  match address_list with
  | host :: port :: _ =>
      match py_int port with
      | Some port => inr (host, port)
      | None => inl PortValueError
      end
  | _ => inl IndexError
  end.

Definition verify_connection (connection : ArangoClient) : ConnectError + unit :=
  if verify connection then inr tt else inl ServerConnectionError.

Definition create_connection (url : string)
  (arango_username arango_password : option string)
  : ConnectError + ArangoClient :=
  match get_host_port url with
  | inl e => inl e
  | inr (host, port) =>
      let u := set_in_env arango_username in
      let p := set_in_env arango_password in
      if negb u && negb p then
        let arango_connection := mkClient host port None None in
        match verify_connection arango_connection with
        | inl e => inl e
        | inr _ => inr arango_connection
        end
      else if (negb u && p) || (u && negb p) then inl InvalidCredentials
      else if u && p then
        let arango_connection :=
          mkClient host port arango_username arango_password in
        match verify_connection arango_connection with
        | inl e => inl e
        | inr _ => inr arango_connection
        end
      else inl UnboundLocalError
  end.
End Connection.

(** An [int] to run the examples with: the ports of the examples. *)
Definition sample_int : PyInt :=
  λ s, if String.eqb s "8529" then Some 8529 else None.

(** ** More notions for the properties *)




(** * Properties *)

(** ** Strings *)

Lemma str_contains_chars c s : str_contains c s = true ↔ In c (chars s).
Proof.
  induction s as [|a s IH]; simpl; [split; [discriminate | tauto] |].
  destruct (Ascii.eqb_spec a c) as [->|Hne].
  - split; auto.
  - rewrite IH. unfold chars. split; [tauto | intros [|]; [congruence | done]].
Qed.

Lemma str_contains_app c s t :
  str_contains c (s +:+ t) = str_contains c s || str_contains c t.
Proof.
  induction s as [|a s IH]; simpl; [done |].
  destruct (Ascii.eqb a c); auto.
Qed.

Lemma split_once_shape sep s :
  (str_contains sep s = false ∧ split_once sep s = [s]) ∨
  (∃ a b, split_once sep s = [a; b] ∧ s = a +:+ String sep b
          ∧ str_contains sep a = false).
Proof.
  induction s as [|c s IH]; simpl; [by left |].
  destruct (Ascii.eqb_spec c sep) as [->|Hne].
  - right. exists EmptyString, s. done.
  - destruct IH as [[Hno ->]|(a & b & -> & -> & Hno)].
    + by left.
    + right. exists (String c a), b. simpl.
      destruct (Ascii.eqb_spec c sep); [done | by rewrite Hno].
Qed.

Lemma split_once_two sep s a b :
  split_once sep s = [a; b] →
  s = a +:+ String sep b ∧ str_contains sep a = false.
Proof.
  destruct (split_once_shape sep s) as [[_ ->]|(a' & b' & -> & -> & Hno)];
    [done | by intros [= <- <-]].
Qed.

Lemma split_once_join sep a b :
  str_contains sep a = false → split_once sep (a +:+ String sep b) = [a; b].
Proof.
  induction a as [|c a IH]; simpl.
  - by rewrite Ascii.eqb_refl.
  - destruct (Ascii.eqb c sep); [done |]. intros Hno. by rewrite IH.
Qed.

Section Encoding.
Context `{PyRepr}.

Lemma pre_process_id_has_dot v : str_contains "."%char (pre_process_id v) = true.
Proof.
  unfold pre_process_id.
  destruct (str_contains "." (py_str v)) eqn:E; simpl; [done |].
  rewrite str_contains_app. simpl. apply orb_true_r.
Qed.

Lemma pre_process_id_encoded v :
  pre_process_id (VStr (pre_process_id v)) = pre_process_id v.
Proof.
  unfold pre_process_id at 1. simpl. by rewrite pre_process_id_has_dot.
Qed.

(** C3.  The key encoding is a function of the string form of the source
    id alone.  When that string holds no ['.'] the key is the string with
    one ['.'] appended; when it holds one the key is the string itself.
    The id [111a] gives [111a.] and the id [1.2] gives [1.2]. *)
Theorem pre_process_id_encoding (v : Value) :
  (¬ In "."%char (chars (py_str v)) → pre_process_id v = py_str v +:+ ".")
  ∧ (In "."%char (chars (py_str v)) → pre_process_id v = py_str v)
  ∧ (∀ v', py_str v' = py_str v → pre_process_id v' = pre_process_id v)
  ∧ pre_process_id (VStr "111a") = "111a."
  ∧ pre_process_id (VStr "1.2") = "1.2".
Proof.
  unfold pre_process_id. repeat split; try reflexivity.
  - intros Hno. destruct (str_contains "." (py_str v)) eqn:E; [|done].
    by apply str_contains_chars in E.
  - intros Hin. apply str_contains_chars in Hin. by rewrite Hin.
  - by intros v' ->.
Qed.
End Encoding.

Lemma pre_process_id_encoding_witness :
  @pre_process_id sample_repr (VInt 42) = "42.".
Proof.
  apply (proj1 (@pre_process_id_encoding sample_repr (VInt 42))).
  vm_compute. intros [E|[E|[]]]; discriminate E.
Defined.

(** ** One collection *)

Section CollectionFacts.
Context {A : Type} `{Keyed A}.
Implicit Types (c : list A) (x y : A) (k : string).

Lemma has_key_true k x : has_key k x = true ↔ key_of x = k.
Proof. unfold has_key. apply String.eqb_eq. Qed.

Lemma has_key_false k x : has_key k x = false ↔ key_of x ≠ k.
Proof. unfold has_key. apply String.eqb_neq. Qed.

Lemma coll_has_keys k c : coll_has k c = true ↔ In k (keys c).
Proof.
  unfold coll_has, keys. rewrite existsb_exists, in_map_iff.
  split; intros (x & H1 & H2).
  - exists x. by apply has_key_true in H2.
  - exists x. by rewrite has_key_true.
Qed.

Lemma coll_has_absent k c : coll_has k c = false ↔ ¬ In k (keys c).
Proof. rewrite <- coll_has_keys. by destruct (coll_has k c). Qed.

Lemma find_absent k c : ¬ In k (keys c) → coll_find (has_key k) c = [].
Proof.
  induction c as [|y c IH]; simpl; [done |]. intros Hno.
  destruct (has_key k y) eqn:E.
  - apply has_key_true in E. tauto.
  - apply IH. tauto.
Qed.

Lemma find_present k c :
  In k (keys c) → ∃ y rest, coll_find (has_key k) c = y :: rest.
Proof.
  induction c as [|y c IH]; simpl; [done |]. intros [Hy|Hin].
  - apply has_key_true in Hy. rewrite Hy. eauto.
  - destruct (has_key k y); eauto.
Qed.

(** A key occurs once in a collection whose keys are unique. *)
Lemma find_unique k c y :
  NoDup (keys c) → In y c → key_of y = k → coll_find (has_key k) c = [y].
Proof.
  induction c as [|z c IH]; simpl; [done |].
  rewrite NoDup_cons. intros [Hz Hnd] [->|Hin] Hk.
  - apply has_key_true in Hk as Hk'. rewrite Hk'. f_equal.
    apply find_absent. subst k. by rewrite <- list_elem_of_In.
  - destruct (has_key k z) eqn:E; [|by apply IH].
    apply has_key_true in E. exfalso. apply Hz. apply list_elem_of_In.
    unfold keys. apply in_map_iff. exists y. split; congruence.
Qed.

Lemma keys_put x c : keys (put x c) = keys c.
Proof.
  unfold keys, put. rewrite map_map. apply map_ext. intros y.
  destruct (has_key (key_of x) y) eqn:E; [|done]. by apply has_key_true in E.
Qed.


Lemma in_put x y c :
  In y (put x c) ↔
  (y = x ∧ In (key_of x) (keys c)) ∨ (In y c ∧ key_of y ≠ key_of x).
Proof.
  induction c as [|z c IH]; simpl; [tauto |]. rewrite IH. clear IH.
  destruct (has_key (key_of x) z) eqn:E.
  - apply has_key_true in E. split.
    + intros [<-|[[-> ?]|[? ?]]]; auto.
    + intros [[-> [?|?]]|[[->|?] ?]]; auto. congruence.
  - apply has_key_false in E. split.
    + intros [<-|[[-> ?]|[? ?]]]; auto.
    + intros [[-> [?|?]]|[[->|?] ?]]; auto. congruence.
Qed.


Lemma find_put_other (p : A → bool) x c :
  p x = false → (∀ y, p y = true → key_of y ≠ key_of x) →
  coll_find p (put x c) = coll_find p c.
Proof.
  intros Hx Hp. induction c as [|y c IH]; simpl; [done |].
  destruct (has_key (key_of x) y) eqn:E.
  - apply has_key_true in E. rewrite Hx.
    destruct (p y) eqn:Ey; [|done]. by apply Hp in Ey.
  - by rewrite IH.
Qed.







Lemma find_import_one_other (p : A → bool) c x :
  p x = false → (∀ y, p y = true → key_of y ≠ key_of x) →
  coll_find p (import_one c x) = coll_find p c.
Proof.
  intros Hx Hp. unfold import_one. destruct (coll_has (key_of x) c).
  - by apply find_put_other.
  - unfold coll_find. rewrite List.filter_app. simpl. rewrite Hx. apply app_nil_r.
Qed.

Lemma keys_delete k c :
  keys (List.filter (λ y, negb (has_key k y)) c) =
  List.filter (λ k', negb (String.eqb k' k)) (keys c).
Proof.
  induction c as [|y c IH]; simpl; [done |]. unfold has_key at 1.
  destruct (String.eqb (key_of y) k); simpl; by rewrite IH.
Qed.



Lemma find_delete k c :
  coll_find (has_key k) (List.filter (λ y, negb (has_key k y)) c) = [].
Proof.
  induction c as [|y c IH]; simpl; [done |].
  destruct (has_key k y) eqn:E; simpl; [done | by rewrite E].
Qed.

Lemma has_delete k c :
  coll_has k (List.filter (λ y, negb (has_key k y)) c) = false.
Proof.
  apply coll_has_absent. rewrite keys_delete, filter_In.
  rewrite String.eqb_refl. simpl. intros [_ ?]. done.
Qed.

Lemma find_delete_other (p : A → bool) k c :
  (∀ y, p y = true → key_of y ≠ k) →
  coll_find p (List.filter (λ y, negb (has_key k y)) c) = coll_find p c.
Proof.
  intros Hp. induction c as [|y c IH]; simpl; [done |].
  destruct (has_key k y) eqn:E; simpl.
  - apply has_key_true in E. destruct (p y) eqn:Ey; [|done]. by apply Hp in Ey.
  - by rewrite IH.
Qed.
End CollectionFacts.

(** ** Databases and collections *)

Lemma world_eq (w1 w2 : World) :
  databases w1 = databases w2 → meta_collection w1 = meta_collection w2 →
  log w1 = log w2 → w1 = w2.
Proof. destruct w1, w2. simpl. by intros -> -> ->. Qed.

Lemma collection_of_with_collection db coll docs w :
  collection_of db coll (with_collection db coll docs w) = Some docs.
Proof.
  unfold collection_of, with_collection. simpl.
  rewrite lookup_insert_eq. simpl. by rewrite lookup_insert_eq.
Qed.

Lemma collection_of_with_collection_ne db coll docs w db' coll' :
  (db', coll') ≠ (db, coll) →
  collection_of db' coll' (with_collection db coll docs w) =
  collection_of db' coll' w.
Proof.
  intros Hne. unfold collection_of, with_collection. simpl.
  destruct (decide (db' = db)) as [->|Hdb].
  - rewrite lookup_insert_eq. simpl.
    rewrite lookup_insert_ne by congruence.
    by destruct (databases w !! db).
  - by rewrite lookup_insert_ne.
Qed.

Lemma with_collection_id db coll docs w :
  collection_of db coll w = Some docs → with_collection db coll docs w = w.
Proof.
  unfold collection_of, with_collection. intros Hc.
  destruct (databases w !! db) as [colls|] eqn:E; [|done]. simpl in Hc.
  apply world_eq; simpl; try done.
  rewrite insert_id; [done |]. rewrite E. f_equal. by rewrite insert_id.
Qed.

Lemma with_collection_twice db coll docs1 docs2 w :
  with_collection db coll docs2 (with_collection db coll docs1 w) =
  with_collection db coll docs2 w.
Proof.
  apply world_eq; simpl; try done.
  rewrite lookup_insert_eq. simpl. rewrite insert_insert_eq.
  by rewrite insert_insert_eq.
Qed.

Lemma set_collection_in_database db coll docs w :
  is_Some (databases w !! db) →
  set_collection db coll docs w = with_collection db coll docs w.
Proof.
  unfold set_collection, with_collection. intros [colls E].
  apply world_eq; simpl; try done.
  apply map_eq. intros db'. destruct (decide (db' = db)) as [->|Hne].
  - rewrite lookup_alter_eq, lookup_insert_eq, E. done.
  - by rewrite lookup_alter_ne, lookup_insert_ne.
Qed.

Lemma collection_of_database db coll docs w :
  collection_of db coll w = Some docs → is_Some (databases w !! db).
Proof. unfold collection_of. by destruct (databases w !! db). Qed.

Lemma stored_after_create db coll w :
  stored db coll (after_create db coll w) = stored db coll w.
Proof.
  unfold after_create. destruct (nonempty coll && nonempty db); [|done].
  unfold stored at 1. by rewrite collection_of_with_collection.
Qed.

Lemma after_create_existing db coll docs w :
  collection_of db coll w = Some docs → after_create db coll w = w.
Proof.
  intros Hc. unfold after_create, stored. rewrite Hc. simpl.
  destruct (nonempty coll && nonempty db); [by apply with_collection_id | done].
Qed.

(** ** Calls on the handles, evaluated *)

Lemma key_of_meta (m : Meta) : key_of m = m_key m.
Proof. reflexivity. Qed.

Lemma key_of_doc (d : Doc) : key_of d = doc_key d.
Proof. reflexivity. Qed.

Lemma set_meta_same w : set_meta (λ _, meta_collection w) w = w.
Proof. by destruct w. Qed.

Lemma set_meta_ext f g w :
  f (meta_collection w) = g (meta_collection w) → set_meta f w = set_meta g w.
Proof. unfold set_meta. by intros ->. Qed.

Lemma set_collection_same db coll docs w :
  collection_of db coll w = Some docs → set_collection db coll docs w = w.
Proof.
  intros Hc. rewrite set_collection_in_database
    by (by eapply collection_of_database).
  by apply with_collection_id.
Qed.

Lemma meta_find_run p w : meta_find p w = (Ok (coll_find p (meta_collection w)), w).
Proof.
  unfold meta_find, on_meta, bind, gets, modify, ret. simpl.
  by rewrite set_meta_same.
Qed.

Lemma meta_replace_run m w :
  meta_replace m w =
  if coll_has (m_key m) (meta_collection w)
  then (Ok tt, set_meta (put m) w)
  else (Raise DocumentReplaceError, w).
Proof.
  unfold meta_replace, on_meta, coll_replace, bind, gets, modify, ret, raise.
  simpl. unfold key_of at 1, Meta_keyed.
  by destruct (coll_has (m_key m) (meta_collection w)).
Qed.

Lemma meta_insert_run m w :
  meta_insert m w =
  if coll_has (m_key m) (meta_collection w)
  then (Raise DocumentInsertError, w)
  else (Ok tt, set_meta (λ c, c ++ [m]) w).
Proof.
  unfold meta_insert, on_meta, coll_insert, bind, gets, modify, ret, raise.
  simpl. unfold key_of at 1, Meta_keyed.
  by destruct (coll_has (m_key m) (meta_collection w)).
Qed.

Lemma meta_delete_run k w :
  meta_delete k w =
  if coll_has k (meta_collection w)
  then (Ok tt, set_meta (List.filter (λ m, negb (has_key k m))) w)
  else (Raise DocumentDeleteError, w).
Proof.
  unfold meta_delete, on_meta, coll_delete, bind, gets, modify, ret, raise.
  simpl. by destruct (coll_has k (meta_collection w)).
Qed.

Lemma doc_find_run db coll p w :
  doc_find db coll p w =
  match collection_of db coll w with
  | Some docs => (Ok (coll_find p docs), w)
  | None => (Raise DocumentGetError, w)
  end.
Proof.
  unfold doc_find, on_collection, bind, gets, modify, ret, raise. simpl.
  destruct (collection_of db coll w) eqn:E; [|done]. simpl.
  by rewrite set_collection_same.
Qed.

Lemma doc_has_run db coll k w :
  doc_has db coll k w =
  match collection_of db coll w with
  | Some docs => (Ok (coll_has k docs), w)
  | None => (Raise DocumentInError, w)
  end.
Proof.
  unfold doc_has, on_collection, bind, gets, modify, ret, raise. simpl.
  destruct (collection_of db coll w) eqn:E; [|done]. simpl.
  by rewrite set_collection_same.
Qed.

Lemma doc_replace_run db coll (d : Doc) w :
  doc_replace db coll d w =
  match collection_of db coll w with
  | Some docs =>
      if coll_has (doc_key d) docs
      then (Ok tt, set_collection db coll (put d docs) w)
      else (Raise DocumentReplaceError, w)
  | None => (Raise DocumentReplaceError, w)
  end.
Proof.
  unfold doc_replace, on_collection, coll_replace, bind, gets, modify, ret,
    raise. simpl.
  destruct (collection_of db coll w) eqn:E; [|done]. simpl.
  unfold key_of at 1, Doc_keyed. by destruct (coll_has (doc_key d) l).
Qed.

Lemma doc_insert_run db coll (d : Doc) w :
  doc_insert db coll d w =
  match collection_of db coll w with
  | Some docs =>
      if coll_has (doc_key d) docs
      then (Raise DocumentInsertError, w)
      else (Ok tt, set_collection db coll (docs ++ [d]) w)
  | None => (Raise DocumentInsertError, w)
  end.
Proof.
  unfold doc_insert, on_collection, coll_insert, bind, gets, modify, ret,
    raise. simpl.
  destruct (collection_of db coll w) eqn:E; [|done]. simpl.
  unfold key_of at 1, Doc_keyed. by destruct (coll_has (doc_key d) l).
Qed.

Lemma doc_delete_run db coll k w :
  doc_delete db coll k w =
  match collection_of db coll w with
  | Some docs =>
      if coll_has k docs
      then (Ok tt, set_collection db coll
                     (List.filter (λ d, negb (has_key k d)) docs) w)
      else (Raise DocumentDeleteError, w)
  | None => (Raise DocumentDeleteError, w)
  end.
Proof.
  unfold doc_delete, on_collection, coll_delete, bind, gets, modify, ret,
    raise. simpl.
  destruct (collection_of db coll w) eqn:E; [|done]. simpl.
  by destruct (coll_has k l).
Qed.

Section Commands.
Context `{PyRepr}.

Lemma namespace_parts ns db coll :
  _db_and_collection ns = [db; coll] →
  ns = db +:+ "." +:+ coll ∧ str_contains "."%char db = false.
Proof. apply split_once_two. Qed.

Lemma map_collection_parts ns db coll :
  _db_and_collection ns = [db; coll] → map_collection db coll = [db; coll].
Proof.
  intros [_ Hno]%namespace_parts. unfold map_collection, map_namespace.
  by apply split_once_join.
Qed.

(** The command [{"create": coll}] makes the database and the collection
    that are not there yet, and never raises. *)
Lemma handle_command_create ns db coll ts w :
  _db_and_collection ns = [db; coll] →
  handle_command {[ "create" := VStr coll ]} ns ts w =
  (Ok tt, after_create db coll w).
Proof.
  intros Hns. unfold handle_command, after_create, wrap_exceptions, bind.
  rewrite Hns. simpl.
  rewrite !lookup_singleton_ne by done. rewrite lookup_singleton_eq. simpl.
  fold (nonempty coll). destruct (nonempty coll) eqn:Ecoll; simpl; [|done].
  rewrite (map_collection_parts ns) by done. simpl.
  destruct (nonempty db) eqn:Edb; simpl; [|done].
  rewrite lookup_singleton_ne by done. simpl.
  unfold check_if_database_exists, check_if_collection_exists, collections,
    create_database, create_collection, arango_databases, wrap_exceptions,
    bind, gets, modify, ret, raise. simpl.
  unfold stored, collection_of.
  case_bool_decide as Hdb; simpl.
  - apply elem_of_dom in Hdb as [colls Hcolls]. rewrite Hcolls. simpl.
    case_bool_decide as Hcoll; simpl.
    + apply elem_of_dom in Hcoll as [docs Hdocs]. rewrite Hdocs. simpl.
      f_equal. symmetry. apply with_collection_id.
      unfold collection_of. by rewrite Hcolls.
    + rewrite Hcolls. simpl. case_bool_decide; [done |]. simpl.
      apply not_elem_of_dom in Hcoll. rewrite Hcoll. simpl. f_equal.
      by apply set_collection_in_database.
  - replace (databases w !! db) with (@None (gmap string (list Doc)))
      by (symmetry; by apply not_elem_of_dom).
    simpl. case_bool_decide; [done |]. simpl.
    rewrite lookup_insert_eq. simpl.
    case_bool_decide as Hcoll; [by rewrite dom_empty_L in Hcoll |]. simpl.
    rewrite lookup_insert_eq. simpl.
    case_bool_decide; [done |]. simpl. f_equal.
    apply world_eq; simpl; try done.
    rewrite alter_insert_eq.
    by replace (databases w !! db) with (@None (gmap string (list Doc)))
      by (symmetry; by apply not_elem_of_dom).
Qed.

Lemma nonzero_find {A} (p : A → bool) (c : list A) :
  nonzero (length (coll_find p c)) = existsb p c.
Proof.
  induction c as [|x c IH]; simpl; [done |]. by destruct (p x).
Qed.

Lemma key_ns_filter_has k ns c :
  existsb (key_ns_filter k ns) c = true → coll_has k c = true.
Proof.
  unfold coll_has. rewrite !existsb_exists. intros (m & Hin & Hm).
  exists m. split; [done |]. unfold key_ns_filter in Hm.
  by apply andb_true_iff in Hm as [Hk _].
Qed.

Lemma doc_key_insert k (d : Doc) : doc_key (<[unique_key := VStr k]> d) = k.
Proof. unfold doc_key. by rewrite lookup_insert_eq. Qed.

(** The second write of [upsert]: the document, replaced or inserted. *)
Ltac upsert_document_step :=
  let docs := fresh "docs" in
  let Ec := fresh "Ec" in
  let Ek := fresh "Ek" in
  rewrite doc_has_run; simpl;
  match goal with
  | |- context [collection_of ?db ?coll ?w] =>
      destruct (collection_of db coll w) as [docs|] eqn:Ec; simpl; [|done]
  end;
  unfold import_one; rewrite key_of_doc, doc_key_insert;
  match goal with
  | |- context [coll_has ?k docs] =>
      destruct (coll_has k docs) eqn:Ek; simpl;
      [ rewrite doc_replace_run; simpl; rewrite Ec, doc_key_insert, Ek
      | rewrite doc_insert_run; simpl; rewrite Ec, doc_key_insert, Ek ]
  end; done.

(** [upsert] step by step. *)
Lemma upsert_unfold ns db coll doc ts w :
  _db_and_collection ns = [db; coll] →
  upsert doc ns ts w = upsert_outcome db coll doc ns ts w.
Proof.
  intros Hns. unfold upsert, upsert_outcome, wrap_exceptions, bind.
  rewrite Hns. simpl. unfold world at 1. simpl.
  rewrite (handle_command_create ns db coll) by done.
  unfold doc_get, doc_pop, gets, bind. simpl.
  destruct (doc !! "_id") as [id|] eqn:Eid; simpl; [|done].
  set (k := pre_process_id id). set (w0 := after_create db coll w).
  unfold world, this_doc, doc_update, bind, gets, modify. simpl.
  rewrite set_meta_same, nonzero_find.
  destruct (existsb (key_ns_filter k ns) (meta_collection w0)) eqn:Ehit; simpl.
  - rewrite (key_ns_filter_has _ _ _ Ehit). simpl.
    rewrite meta_replace_run. simpl.
    rewrite (key_ns_filter_has _ _ _ Ehit). simpl.
    rewrite (set_meta_ext (λ c, import_one c _) (put (mkMeta k ts ns)))
      by (unfold import_one; rewrite key_of_meta; simpl;
          by rewrite (key_ns_filter_has _ _ _ Ehit)).
    upsert_document_step.
  - rewrite meta_insert_run. simpl.
    destruct (coll_has k (meta_collection w0)) eqn:Ek; simpl; [done |].
    rewrite (set_meta_ext (λ c, import_one c _) (λ c, c ++ [mkMeta k ts ns]))
      by (unfold import_one; rewrite key_of_meta; simpl; by rewrite Ek).
    upsert_document_step.
Qed.
Lemma nonempty_true s : nonempty s = true ↔ s ≠ EmptyString.
Proof.
  unfold nonempty. rewrite negb_true_iff. apply String.eqb_neq.
Qed.

Lemma meta_after_create db coll w :
  meta_collection (after_create db coll w) = meta_collection w.
Proof. unfold after_create. by destruct (nonempty coll && nonempty db). Qed.

Lemma log_after_create db coll w : log (after_create db coll w) = log w.
Proof. unfold after_create. by destruct (nonempty coll && nonempty db). Qed.

Lemma after_create_collection db coll docs w :
  collection_of db coll (after_create db coll w) = Some docs →
  docs = stored db coll w
  ∧ ∀ docs', set_collection db coll docs' (after_create db coll w) =
             with_collection db coll docs' w.
Proof.
  unfold after_create. destruct (nonempty coll && nonempty db).
  - rewrite collection_of_with_collection. intros [= <-]. split; [done |].
    intros docs'. rewrite set_collection_in_database.
    + apply with_collection_twice.
    + eapply collection_of_database, collection_of_with_collection.
  - intros Hc. unfold stored. rewrite Hc. split; [done |]. intros docs'.
    apply set_collection_in_database. by eapply collection_of_database.
Qed.

Lemma conflict_free_bool k ns w :
  no_conflict k ns w →
  coll_has k (meta_collection w)
  && negb (existsb (key_ns_filter k ns) (meta_collection w)) = false.
Proof.
  intros Hfree. destruct (coll_has k (meta_collection w)) eqn:Ek; [|done].
  simpl. apply negb_false_iff.
  unfold coll_has in Ek. apply existsb_exists in Ek as (m & Hin & Hm).
  apply has_key_true in Hm. apply existsb_exists. exists m. split; [done |].
  unfold key_ns_filter. apply andb_true_iff.
  split; apply String.eqb_eq; [done | by apply Hfree].
Qed.

Lemma conflict_free_prop k ns w :
  NoDup (keys (meta_collection w)) →
  coll_has k (meta_collection w)
  && negb (existsb (key_ns_filter k ns) (meta_collection w)) = false →
  no_conflict k ns w.
Proof.
  intros Hnd Hb m Hin Hk.
  assert (Hhas : coll_has k (meta_collection w) = true).
  { apply coll_has_keys. unfold keys. apply in_map_iff. by exists m. }
  rewrite Hhas in Hb. simpl in Hb. apply negb_false_iff in Hb.
  apply existsb_exists in Hb as (m0 & Hin0 & Hm0).
  unfold key_ns_filter in Hm0. apply andb_true_iff in Hm0 as [Hk0 Hns0].
  apply String.eqb_eq in Hk0, Hns0.
  pose proof (find_unique k _ m Hnd Hin Hk) as E1.
  pose proof (find_unique k _ m0 Hnd Hin0 Hk0) as E2.
  rewrite E1 in E2. by injection E2 as ->.
Qed.

Lemma upsert_malformed_namespace doc ns ts w :
  _db_and_collection ns = [ns] → upsert doc ns ts w = (Raise ValueError, (doc, w)).
Proof.
  intros Hns. unfold upsert, wrap_exceptions, bind. by rewrite Hns.
Qed.

(** What a successful [upsert] has done. *)
Lemma upsert_ok_inv doc ns ts w doc' w' :
  NoDup (keys (meta_collection w)) →
  upsert doc ns ts w = (Ok tt, (doc', w')) →
  ∃ db coll id,
    _db_and_collection ns = [db; coll] ∧ doc !! "_id" = Some id
    ∧ no_conflict (pre_process_id id) ns w
    ∧ doc' = <[unique_key := VStr (pre_process_id id)]> (delete "_id" doc)
    ∧ w' = upserted db coll doc' (mkMeta (pre_process_id id) ts ns) w.
Proof.
  intros Hnd.
  destruct (split_once_shape "."%char ns) as [[_ Hns]|(db & coll & Hns & _)].
  { by rewrite upsert_malformed_namespace. }
  rewrite (upsert_unfold ns db coll) by done. unfold upsert_outcome.
  destruct (doc !! "_id") as [id|] eqn:Eid; [|done].
  rewrite meta_after_create.
  destruct (coll_has _ _ && negb _) eqn:Efree; [done |].
  apply conflict_free_prop in Efree; [|done].
  change (collection_of db coll (set_meta ?f ?w0)) with (collection_of db coll w0).
  destruct (collection_of db coll (after_create db coll w)) as [docs|] eqn:Ec;
    [|done].
  apply after_create_collection in Ec as [-> Hset].
  intros [= <- <-]. exists db, coll, id. split_and!; try done.
  unfold upserted. by rewrite <- Hset.
Qed.

(** [upsert] succeeds when the namespace names a database and a collection,
    the document carries an id, and the key is not taken by another
    namespace. *)
Lemma upsert_succeeds ns db coll doc id ts w :
  _db_and_collection ns = [db; coll] →
  db ≠ EmptyString → coll ≠ EmptyString →
  doc !! "_id" = Some id →
  no_conflict (pre_process_id id) ns w →
  upsert doc ns ts w =
  (Ok tt, (<[unique_key := VStr (pre_process_id id)]> (delete "_id" doc),
           upserted db coll
             (<[unique_key := VStr (pre_process_id id)]> (delete "_id" doc))
             (mkMeta (pre_process_id id) ts ns) w)).
Proof.
  intros Hns Hdb Hcoll Hid Hfree.
  rewrite (upsert_unfold ns db coll) by done. unfold upsert_outcome.
  rewrite Hid, meta_after_create, conflict_free_bool by done.
  change (collection_of db coll (set_meta ?f ?w0)) with (collection_of db coll w0).
  assert (Hc : collection_of db coll (after_create db coll w)
               = Some (stored db coll w)).
  { unfold after_create. apply nonempty_true in Hdb, Hcoll.
    rewrite Hdb, Hcoll. apply collection_of_with_collection. }
  rewrite Hc. apply after_create_collection in Hc as [_ Hset].
  do 2 f_equal. unfold upserted. by rewrite <- Hset.
Qed.
End Commands.

(** ** The world after an upsert and after a remove *)








Lemma stored_upserted db coll doc m w :
  stored db coll (upserted db coll doc m w) = import_one (stored db coll w) doc.
Proof.
  unfold stored at 1, upserted.
  change (collection_of db coll (set_meta ?f ?w0)) with (collection_of db coll w0).
  by rewrite collection_of_with_collection.
Qed.

Lemma collection_of_upserted_ne db coll doc m w db' coll' :
  (db', coll') ≠ (db, coll) →
  collection_of db' coll' (upserted db coll doc m w) = collection_of db' coll' w.
Proof.
  intros Hne. unfold upserted.
  change (collection_of db' coll' (set_meta ?f ?w0))
    with (collection_of db' coll' w0).
  by apply collection_of_with_collection_ne.
Qed.




Section Removal.
Context `{PyRepr}.

Lemma remove_malformed_namespace id ns ts w :
  _db_and_collection ns = [ns] → remove id ns ts w = (Raise ValueError, w).
Proof. intros Hns. unfold remove, wrap_exceptions, bind. by rewrite Hns. Qed.

(** [remove] step by step. *)
Lemma remove_unfold ns db coll id ts w :
  _db_and_collection ns = [db; coll] →
  remove id ns ts w = remove_outcome db coll id w.
Proof.
  intros Hns. unfold remove, remove_outcome, wrap_exceptions, bind.
  rewrite Hns. simpl. rewrite meta_delete_run.
  destruct (coll_has _ (meta_collection w)) eqn:Ek; [|done].
  rewrite doc_delete_run.
  change (collection_of db coll (set_meta ?f ?w0)) with (collection_of db coll w0).
  destruct (collection_of db coll w) as [docs|] eqn:Ec; [|done].
  destruct (coll_has _ docs) eqn:Ed; [|done].
  unfold removed, stored. by rewrite Ec.
Qed.


Lemma stored_removed db coll k w :
  stored db coll (removed db coll k w) =
  List.filter (λ d, negb (has_key k d)) (stored db coll w).
Proof.
  unfold removed, stored.
  destruct (collection_of db coll w) as [docs|] eqn:Ec; simpl.
  - rewrite set_collection_in_database.
    + by rewrite collection_of_with_collection.
    + simpl. by eapply collection_of_database.
  - unfold collection_of, set_collection in *. simpl in *.
    destruct (databases w !! db) as [colls|] eqn:Edb; simpl in *.
    + rewrite lookup_alter_eq, Edb. simpl. by rewrite lookup_insert_eq.
    + by rewrite lookup_alter_eq, Edb.
Qed.


End Removal.

(** ** The metadata index *)








Section Index.
Context `{PyRepr}.



End Index.

(** ** Upsert *)

Section Upsert.
Context `{PyRepr}.




(** C10.  [upsert] works on the caller's dict.  A call with a dict that
    carries an [_id], for a namespace with a database and a collection and a
    key that no other namespace holds, succeeds and leaves the dict changed:
    [_id] is gone and the encoded key is there under [_key].  Every
    successful call leaves the dict so.  On a dict without [_id] the call
    raises [KeyError], when the collection has already been made; so a second
    call with the dict of a successful call raises. *)
Theorem upsert_mutates_its_argument ns db coll doc t w :
  _db_and_collection ns = [db; coll] →
  (doc !! "_id" = None →
     upsert doc ns t w = (Raise KeyError, (doc, after_create db coll w))
     ∧ (db ≠ EmptyString → coll ≠ EmptyString →
        collection_of db coll (after_create db coll w)
        = Some (stored db coll w)))
  ∧ (∀ doc' w',
       upsert doc ns t w = (Ok tt, (doc', w')) →
       doc' = <[unique_key := VStr (pre_process_id (default VNone (doc !! "_id")))]>
                (delete "_id" doc)
       ∧ is_Some (doc !! "_id") ∧ doc' !! "_id" = None ∧ doc' ≠ doc
       ∧ upsert doc' ns t w' = (Raise KeyError, (doc', w')))
  ∧ (∀ id,
       doc !! "_id" = Some id →
       db ≠ EmptyString → coll ≠ EmptyString →
       no_conflict (pre_process_id id) ns w →
       ∃ doc' w',
         upsert doc ns t w = (Ok tt, (doc', w'))
         ∧ doc' = <[unique_key := VStr (pre_process_id id)]> (delete "_id" doc)
         ∧ doc' !! "_id" = None
         ∧ doc' !! unique_key = Some (VStr (pre_process_id id))
         ∧ doc' ≠ doc).
Proof.
  intros Hns. split_and!; [| |
    intros id Hid Hdb Hcoll Hfree;
    assert (Hgone : (<[unique_key := VStr (pre_process_id id)]>
                       (delete "_id" doc) : Doc) !! "_id" = None)
      by (rewrite lookup_insert_ne by done; apply lookup_delete_eq);
    eexists _, _; split_and!;
      [ by apply (upsert_succeeds ns db coll doc id) | done | exact Hgone
      | apply lookup_insert_eq
      | intros E; rewrite E, Hid in Hgone; done ] ].
  - intros Hid. split.
    + rewrite (upsert_unfold ns db coll) by done.
      unfold upsert_outcome. by rewrite Hid.
    + intros Hdb%nonempty_true Hcoll%nonempty_true. unfold after_create.
      rewrite Hdb, Hcoll. apply collection_of_with_collection.
  - intros doc' w'. rewrite (upsert_unfold ns db coll) by done.
    unfold upsert_outcome.
    destruct (doc !! "_id") as [id|] eqn:Eid; [|done]. simpl.
    destruct (coll_has _ _ && negb _); [done |].
    change (collection_of db coll (set_meta ?f ?w0))
      with (collection_of db coll w0).
    destruct (collection_of db coll (after_create db coll w)) as [docs|] eqn:Ec;
      [|done].
    intros [= <- <-].
    assert (Hgone : (<[unique_key := VStr (pre_process_id id)]>
                       (delete "_id" doc) : Doc) !! "_id" = None).
    { rewrite lookup_insert_ne by done. apply lookup_delete_eq. }
    split_and!; [done | by eexists | done | |].
    + intros E. rewrite E, Eid in Hgone. done.
    + rewrite (upsert_unfold ns db coll) by done. unfold upsert_outcome.
      rewrite Hgone. do 2 f_equal.
      eapply after_create_existing.
      rewrite set_collection_in_database.
      * apply collection_of_with_collection.
      * simpl. by eapply collection_of_database.
Qed.
End Upsert.


Lemma upsert_mutates_its_argument_witness :
  ∃ w',
    @upsert sample_repr john test_namespace 5 empty_world
    = (Ok tt, (john_stored, w'))
    ∧ john !! "_id" = Some (VStr "111a")
    ∧ john_stored !! "_id" = None
    ∧ john_stored !! "_key" = Some (VStr "111a.")
    ∧ john_stored ≠ john
    ∧ @upsert sample_repr john_stored test_namespace 5 w'
      = (Raise KeyError, (john_stored, w')).
Proof.
  destruct (@upsert_mutates_its_argument sample_repr test_namespace
              "test_db" "test_collection" john 5 empty_world eq_refl)
    as (_ & Hafter & Hcall).
  destruct (Hcall (VStr "111a")) as (doc' & w' & Hrun & -> & Hid & Hkey & Hne).
  - reflexivity.
  - discriminate.
  - discriminate.
  - intros m [].
  - destruct (Hafter _ _ Hrun) as (_ & _ & _ & _ & Hagain).
    exists w'.
    exact (conj Hrun (conj eq_refl (conj Hid (conj Hkey (conj Hne Hagain))))).
Defined.


(** ** Remove *)

Section Remove.
Context `{PyRepr}.

(** [delete] with [ignore_missing] set would let a missing key pass; the
    doc manager calls it without. *)
Lemma coll_delete_ignore_missing {A} `{Keyed A} k (c : list A) :
  coll_has k c = false → coll_delete k true c = Ok c.
Proof. intros E. unfold coll_delete. by rewrite E. Qed.

(** C7, as amended.  When the metadata record and the document are both
    there, [remove] succeeds and neither can be found under the encoded key
    afterwards; a second call with the same arguments raises the client's
    [DocumentDeleteError], at the delete of the metadata record, and
    changes nothing. *)
Theorem remove_then_absent ns db coll docs id t w :
  _db_and_collection ns = [db; coll] →
  coll_has (pre_process_id id) (meta_collection w) = true →
  collection_of db coll w = Some docs →
  coll_has (pre_process_id id) docs = true →
  ∃ w',
    remove id ns t w = (Ok tt, w')
    ∧ coll_find (has_key (pre_process_id id)) (stored db coll w') = []
    ∧ coll_find (has_key (pre_process_id id)) (meta_collection w') = []
    ∧ remove id ns t w' = (Raise DocumentDeleteError, w').
Proof.
  intros Hns Hmeta Hc Hdoc. exists (removed db coll (pre_process_id id) w).
  split_and!.
  - rewrite (remove_unfold ns db coll) by done. unfold remove_outcome.
    by rewrite Hmeta, Hc, Hdoc.
  - rewrite stored_removed. apply find_delete.
  - apply (find_delete (A:=Meta)).
  - rewrite (remove_unfold ns db coll) by done. unfold remove_outcome.
    change (meta_collection (removed ?a ?b ?c ?w0))
      with (List.filter (λ m, negb (has_key c m)) (meta_collection w0)).
    by rewrite has_delete.
Qed.
End Remove.

Lemma remove_then_absent_witness :
  ∃ w',
    @remove sample_repr (VStr "111a.") test_namespace 5 world_john = (Ok tt, w')
    ∧ coll_find (has_key "111a.") (stored "test_db" "test_collection" w') = []
    ∧ coll_find (has_key "111a.") (meta_collection w') = []
    ∧ @remove sample_repr (VStr "111a.") test_namespace 5 w'
      = (Raise DocumentDeleteError, w').
Proof.
  apply (@remove_then_absent sample_repr test_namespace "test_db"
           "test_collection" [john_stored] (VStr "111a.") 5 world_john);
    vm_compute; reflexivity.
Defined.

(** C7, as stated, fails: the second of two identical [remove] calls raises. *)
Lemma second_remove_raises :
  (@remove sample_repr (VStr "111a.") test_namespace 5 world_john).1 = Ok tt
  ∧ (@remove sample_repr (VStr "111a.") test_namespace 5
       (run (@remove sample_repr (VStr "111a.") test_namespace 5) world_john)).1
    = Raise DocumentDeleteError.
Proof. split; vm_compute; reflexivity. Qed.

(** ** Update *)

Section Update.
Context `{PyRepr}.


(** The first steps of [update]: the metadata record of the key is brought
    to the new timestamp when there is one for the namespace, then the
    document is looked up. *)
Lemma update_unfold ns db coll docs id spec t w :
  _db_and_collection ns = [db; coll] →
  collection_of db coll w = Some docs →
  update id spec ns t w =
  let k := pre_process_id id in
  let w1 := restamped k ns t w in
  match coll_find (has_key k) docs with
  | document :: _ =>
      wrap_exceptions
        (call (upsert (<["_id" := VStr k]> (apply_update document spec)) ns t)) w1
  | [] => (Ok tt, mkWorld (databases w1) (meta_collection w1)
                    (log w1 ++ [missing_message k]))
  end.
Proof.
  intros Hns Hc. unfold update, restamped, wrap_exceptions, bind.
  rewrite Hns. simpl. rewrite set_meta_same, nonzero_find.
  destruct (existsb _ (meta_collection w)) eqn:Ehit.
  - rewrite meta_replace_run. simpl.
    rewrite (key_ns_filter_has _ _ _ Ehit).
    rewrite doc_find_run.
    change (collection_of db coll (set_meta ?f ?w0))
      with (collection_of db coll w0).
    rewrite Hc. by destruct (coll_find _ docs).
  - simpl. rewrite doc_find_run, Hc. by destruct (coll_find _ docs).
Qed.



End Update.



Section UpdatePatch.
Context `{PyRepr}.



End UpdatePatch.


(** The test of [update]: a city is set, changed and unset. *)
Example update_set_change_unset :
  let set_ny := @update sample_repr (VStr "1") (set_city "New York")
                  test_namespace 6 in
  let set_chicago := @update sample_repr (VStr "1") (set_city "Chicago")
                       test_namespace 7 in
  let unset := @update sample_repr (VStr "1") unset_city test_namespace 8 in
  stored "test_db" "test_collection" (run set_ny world_john_one)
  = [john_in "New York"]
  ∧ stored "test_db" "test_collection"
      (run set_chicago (run set_ny world_john_one))
    = [john_in "Chicago"]
  ∧ stored "test_db" "test_collection"
      (run unset (run set_chicago (run set_ny world_john_one)))
    = [john_one_stored]
  ∧ meta_collection (run unset (run set_chicago (run set_ny world_john_one)))
    = [mkMeta "1." 8 test_namespace].
Proof. vm_compute. done. Qed.

(** ** The metadata index under upsert, update and remove *)






Section IndexKept.
Context `{PyRepr}.

Lemma update_malformed_namespace id spec ns t w :
  _db_and_collection ns = [ns] → update id spec ns t w = (Raise ValueError, w).
Proof. intros Hns. unfold update, wrap_exceptions, bind. by rewrite Hns. Qed.

Lemma update_no_collection ns db coll id spec t w :
  _db_and_collection ns = [db; coll] →
  collection_of db coll w = None →
  update id spec ns t w
  = (Raise DocumentGetError, restamped (pre_process_id id) ns t w).
Proof.
  intros Hns Hc. unfold update, restamped, wrap_exceptions, bind.
  rewrite Hns. simpl. rewrite set_meta_same, nonzero_find.
  destruct (existsb _ (meta_collection w)) eqn:Ehit.
  - rewrite meta_replace_run. simpl.
    rewrite (key_ns_filter_has _ _ _ Ehit).
    rewrite doc_find_run.
    change (collection_of db coll (set_meta ?f ?w0))
      with (collection_of db coll w0).
    by rewrite Hc.
  - simpl. by rewrite doc_find_run, Hc.
Qed.


End IndexKept.



(** ** The recovery queries *)



Section Recovery.
Context `{PyRepr}.




End Recovery.










(** ** Bulk load *)

Section Chunks.
Context {A : Type}.
Implicit Types (l : list A) (n fuel : nat).

Lemma chunked_concat fuel n l :
  (0 < n)%nat → (length l < fuel)%nat → concat (chunked fuel n l) = l.
Proof.
  intros Hn. revert l. induction fuel as [|fuel IH]; intros l Hl; [lia |].
  simpl. destruct (Nat.leb_spec n (length l)).
  - simpl. rewrite IH; [apply take_drop |]. rewrite length_drop. lia.
  - destruct l; simpl; [done | by rewrite app_nil_r].
Qed.

Lemma chunked_sizes fuel n l :
  (0 < n)%nat →
  Forall (λ ch, (0 < length ch ≤ n)%nat) (chunked fuel n l).
Proof.
  intros Hn. revert l. induction fuel as [|fuel IH]; intros l; simpl;
    [constructor |].
  destruct (Nat.leb_spec n (length l)).
  - constructor; [|apply IH]. rewrite length_take. lia.
  - destruct l; constructor; [|constructor]. simpl in *. lia.
Qed.

Lemma chunked_full fuel n l i ch :
  chunked fuel n l !! i = Some ch →
  (S i < length (chunked fuel n l))%nat → length ch = n.
Proof.
  revert l i. induction fuel as [|fuel IH]; intros l i; simpl; [done |].
  destruct (Nat.leb_spec n (length l)).
  - destruct i as [|i]; simpl.
    + intros [= <-] _. rewrite length_take. lia.
    + intros Hch Hi. eapply IH; [done | lia].
  - destruct l; simpl; [done |]. destruct i; simpl; [lia | done].
Qed.

Lemma chunked_count fuel n l :
  (0 < n)%nat → (length l < fuel)%nat →
  length (chunked fuel n l) = ((length l + n - 1) / n)%nat.
Proof.
  intros Hn. revert l. induction fuel as [|fuel IH]; intros l Hl; [lia |].
  simpl. destruct (Nat.leb_spec n (length l)).
  - simpl. rewrite IH by (rewrite length_drop; lia). rewrite length_drop.
    replace (length l + n - 1)%nat with ((length l - n + n - 1) + 1 * n)%nat
      by lia.
    rewrite Nat.div_add by lia. lia.
  - destruct (decide (l = [])) as [->|Hne].
    + simpl. symmetry. apply Nat.div_small. lia.
    + assert (0 < length l)%nat by (destruct l; simpl; [done | lia]).
      replace (match l with [] => [] | _ :: _ => [l] end) with [l]
        by (by destruct l).
      apply (Nat.div_unique (length l + n - 1) n 1 (length l - 1)); lia.
Qed.
End Chunks.

Lemma import_bulk_app {A} `{Keyed A} (xs ys c : list A) :
  coll_import_bulk (xs ++ ys) c = coll_import_bulk ys (coll_import_bulk xs c).
Proof. unfold coll_import_bulk. apply fold_left_app. Qed.

(** Documents with fresh, distinct keys are appended in their order. *)
Lemma import_bulk_fresh {A} `{Keyed A} (xs c : list A) :
  NoDup (keys xs) → (∀ k, In k (keys xs) → ¬ In k (keys c)) →
  coll_import_bulk xs c = c ++ xs.
Proof.
  revert c. induction xs as [|x xs IH]; intros c.
  - intros _ _. simpl. by rewrite app_nil_r.
  - change (keys (x :: xs)) with (key_of x :: keys xs).
    rewrite NoDup_cons. intros [Hx Hnd] Hfresh.
    change (coll_import_bulk (x :: xs) c)
      with (coll_import_bulk xs (import_one c x)).
    assert (import_one c x = c ++ [x]) as ->.
    { unfold import_one.
      replace (coll_has (key_of x) c) with false; [done |].
      symmetry. apply coll_has_absent, Hfresh. by left. }
    rewrite IH; [by rewrite <- app_assoc | done |].
    intros k Hk. unfold keys. rewrite map_app, in_app_iff. simpl.
    intros [Hc|[<-|[]]].
    + by apply (Hfresh k); [right |].
    + apply Hx. by apply list_elem_of_In.
Qed.

Section BulkLoad.
Context `{PyRepr}.
Variables (chunk_size : Z) (ns : string) (t : Z).

Lemma keys_bulk_doc docs :
  keys (map bulk_doc docs)
  = map (λ d, pre_process_id (default VNone (d !! "_id"))) docs.
Proof.
  unfold keys. rewrite map_map. apply map_ext. intros d.
  rewrite key_of_doc. apply doc_key_insert.
Qed.

Lemma keys_bulk_meta docs :
  keys (map (bulk_meta_of ns t) docs) = keys (map bulk_doc docs).
Proof. rewrite keys_bulk_doc. unfold keys. by rewrite map_map. Qed.

Lemma fill_chunk_run range i docs bulk bulk_meta :
  Forall has_id docs →
  fill_chunk ns t range i docs bulk bulk_meta =
  if (range <=? length docs)%nat
  then Ok (bulk ++ map bulk_doc (take range docs),
           bulk_meta ++ map (bulk_meta_of ns t) (take range docs),
           drop range docs, RangeDone)
  else Ok (bulk ++ map bulk_doc docs,
           bulk_meta ++ map (bulk_meta_of ns t) docs,
           [], StopIteration (i + length docs)).
Proof.
  revert i docs bulk bulk_meta.
  induction range as [|range IH]; intros i docs bulk bulk_meta Hids; simpl.
  - by rewrite !app_nil_r.
  - destruct docs as [|doc docs]; simpl.
    + by rewrite !app_nil_r, Nat.add_0_r.
    + apply Forall_cons in Hids as [[id Hid] Hids]. rewrite Hid.
      rewrite IH by done. rewrite <- !app_assoc. simpl.
      by rewrite Nat.add_succ_r.
Qed.

(** The generator yields the chunks of the sequence and then ends. *)
Lemma iterate_chunks_run fuel docs :
  0 < chunk_size → Forall has_id docs → (length docs < fuel)%nat →
  iterate_chunks chunk_size ns t fuel docs =
  (map (λ ch, (map bulk_doc ch, map (bulk_meta_of ns t) ch))
       (chunked fuel (Z.to_nat chunk_size) docs), Exhausted).
Proof.
  intros Hsize. revert docs.
  induction fuel as [|fuel IH]; intros docs Hids Hlen; [lia |].
  simpl. rewrite fill_chunk_run by done. simpl.
  destruct (Nat.leb_spec (Z.to_nat chunk_size) (length docs)).
  - rewrite IH; [done | by apply Forall_drop |].
    rewrite length_drop. lia.
  - destruct docs; simpl; done.
Qed.

Lemma stored_bulk_imported db coll ds ms w :
  stored db coll (bulk_imported db coll ds ms w)
  = coll_import_bulk ds (stored db coll w).
Proof.
  unfold bulk_imported, stored at 1.
  change (collection_of db coll (set_meta ?f ?w0)) with (collection_of db coll w0).
  by rewrite collection_of_with_collection.
Qed.

Lemma import_chunk_run db coll docs ds ms w :
  collection_of db coll w = Some docs →
  (doc_import_bulk db coll ds ;; meta_import_bulk ms) w
  = (Ok tt, bulk_imported db coll ds ms w).
Proof.
  intros Hc. unfold doc_import_bulk, meta_import_bulk, on_collection, on_meta,
    bind, gets, modify, ret. simpl. rewrite Hc. simpl. f_equal.
  unfold bulk_imported, stored. rewrite Hc. simpl.
  rewrite set_collection_in_database by (by eapply collection_of_database).
  done.
Qed.

Lemma bulk_imported_app db coll ds1 ms1 ds2 ms2 w :
  bulk_imported db coll ds2 ms2 (bulk_imported db coll ds1 ms1 w)
  = bulk_imported db coll (ds1 ++ ds2) (ms1 ++ ms2) w.
Proof.
  unfold bulk_imported at 1. rewrite stored_bulk_imported.
  unfold bulk_imported. apply world_eq; simpl.
  - rewrite lookup_insert_eq. simpl. rewrite !insert_insert_eq.
    by rewrite import_bulk_app.
  - by rewrite import_bulk_app.
  - done.
Qed.

Lemma for_each_chunk db coll docs (chunks : list (list Doc)) w :
  collection_of db coll w = Some docs →
  for_each (map (λ ch, (map bulk_doc ch, map (bulk_meta_of ns t) ch)) chunks)
    (λ chunk, doc_import_bulk db coll chunk.1 ;; meta_import_bulk chunk.2) w
  = (Ok tt, bulk_imported db coll (map bulk_doc (concat chunks))
              (map (bulk_meta_of ns t) (concat chunks)) w).
Proof.
  revert docs w. induction chunks as [|ch chunks IH]; intros docs w Hc; simpl.
  - unfold ret. f_equal. unfold bulk_imported, stored. rewrite Hc. simpl.
    rewrite with_collection_id by done. symmetry. apply set_meta_same.
  - unfold bind at 1. rewrite (import_chunk_run db coll docs) by done.
    erewrite IH.
    + by rewrite bulk_imported_app, !map_app.
    + unfold bulk_imported.
      change (collection_of db coll (set_meta ?f ?w0))
        with (collection_of db coll w0).
      apply collection_of_with_collection.
Qed.
End BulkLoad.

Section BulkUpsertComplete.
Context `{PyRepr}.

(** For a batch size that is not positive the generator never ends: it
    yields one empty chunk after the other. *)
Lemma iterate_chunks_nonpositive chunk_size ns t fuel docs :
  chunk_size ≤ 0 →
  iterate_chunks chunk_size ns t fuel docs
  = (repeat ([], []) fuel, StillRunning).
Proof.
  intros Hsize. induction fuel as [|fuel IH]; simpl; [done |].
  replace (Z.to_nat chunk_size) with 0%nat by lia. simpl. by rewrite IH.
Qed.

Lemma bulk_upsert_run chunk_size ns db coll t fuel docs w :
  0 < chunk_size →
  _db_and_collection ns = [db; coll] →
  db ≠ EmptyString → coll ≠ EmptyString →
  Forall has_id docs →
  (length docs < fuel)%nat →
  bulk_upsert chunk_size ns t fuel docs w
  = (Ok Returned,
     bulk_imported db coll (map bulk_doc docs) (map (bulk_meta_of ns t) docs)
       (after_create db coll w)).
Proof.
  intros Hsize Hns Hdb Hcoll Hids Hfuel.
  set (w0 := after_create db coll w).
  assert (Hc : collection_of db coll w0 = Some (stored db coll w)).
  { unfold w0, after_create. apply nonempty_true in Hdb, Hcoll.
    rewrite Hdb, Hcoll. apply collection_of_with_collection. }
  unfold bulk_upsert, wrap_exceptions, bind at 1 2.
  rewrite Hns. simpl.
  rewrite (handle_command_create ns db coll) by done. fold w0.
  rewrite iterate_chunks_run by done.
  unfold bind at 1. erewrite for_each_chunk by done.
  rewrite chunked_concat; [done | lia | done].
Qed.

Lemma bulk_imported_fresh ns db coll t docs w :
  NoDup (keys (map bulk_doc docs)) →
  stored db coll w = [] → meta_collection w = [] →
  stored db coll
    (bulk_imported db coll (map bulk_doc docs) (map (bulk_meta_of ns t) docs)
       (after_create db coll w))
  = map bulk_doc docs
  ∧ meta_collection
      (bulk_imported db coll (map bulk_doc docs)
         (map (bulk_meta_of ns t) docs) (after_create db coll w))
    = map (bulk_meta_of ns t) docs.
Proof.
  intros Hnd Hdocs Hmeta. split.
  - rewrite stored_bulk_imported, stored_after_create, Hdocs.
    rewrite import_bulk_fresh; [done | done | by intros k _ []].
  - unfold bulk_imported. simpl. rewrite meta_after_create, Hmeta.
    rewrite import_bulk_fresh;
      [done | by rewrite keys_bulk_meta | by intros k _ []].
Qed.

(** C4.  With a positive batch size and a fuel above the number of
    documents, the generator yields the documents, encoded, in chunks of
    the batch size: every chunk holds at least one document, every chunk
    but the last holds exactly the batch size, and together they hold each
    document of the sequence once, in order, with one metadata entry each.
    [bulk_upsert] returns after importing all of them with replacement on a
    duplicate key; into an empty collection, documents with distinct keys
    make as many stored documents and metadata records as the sequence is
    long. *)
Theorem bulk_upsert_complete chunk_size ns db coll t fuel docs w :
  0 < chunk_size →
  _db_and_collection ns = [db; coll] →
  db ≠ EmptyString → coll ≠ EmptyString →
  Forall has_id docs →
  (length docs < fuel)%nat →
  let n := Z.to_nat chunk_size in
  let chunks := chunked fuel n docs in
  iterate_chunks chunk_size ns t fuel docs
  = (map (λ ch, (map bulk_doc ch, map (bulk_meta_of ns t) ch)) chunks,
     Exhausted)
  ∧ concat chunks = docs
  ∧ Forall (λ ch, (0 < length ch ≤ n)%nat) chunks
  ∧ (∀ i ch, chunks !! i = Some ch → (S i < length chunks)%nat →
             length ch = n)
  ∧ length chunks = ((length docs + n - 1) / n)%nat
  ∧ ∃ w',
      bulk_upsert chunk_size ns t fuel docs w = (Ok Returned, w')
      ∧ stored db coll w'
        = coll_import_bulk (map bulk_doc docs) (stored db coll w)
      ∧ meta_collection w'
        = coll_import_bulk (map (bulk_meta_of ns t) docs) (meta_collection w)
      ∧ (NoDup (keys (map bulk_doc docs)) →
         stored db coll w = [] → meta_collection w = [] →
         stored db coll w' = map bulk_doc docs
         ∧ meta_collection w' = map (bulk_meta_of ns t) docs
         ∧ length (stored db coll w') = length docs
         ∧ length (meta_collection w') = length docs).
Proof.
  intros Hsize Hns Hdb Hcoll Hids Hfuel n chunks.
  assert (Hn : (0 < n)%nat) by (unfold n; lia).
  split_and!.
  - by apply iterate_chunks_run.
  - by apply chunked_concat.
  - by apply chunked_sizes.
  - apply chunked_full.
  - by apply chunked_count.
  - eexists. split_and!.
    + by apply (bulk_upsert_run chunk_size ns db coll).
    + by rewrite stored_bulk_imported, stored_after_create.
    + unfold bulk_imported. simpl. by rewrite meta_after_create.
    + intros Hnd Hdocs Hmeta.
      destruct (bulk_imported_fresh ns db coll t docs w Hnd Hdocs Hmeta)
        as [-> ->].
      by rewrite !length_map.
Qed.

(** The ids of the test: the integers print without a ['.'], so their keys
    are their decimal forms with the ['.'] appended, all different. *)
Lemma pretty_N_go_no_dot x s :
  str_contains "."%char (pretty_N_go x s) = str_contains "."%char s.
Proof.
  revert s. induction (N.lt_wf_0 x) as [x _ IH]; intros s.
  assert (x = 0 ∨ 0 < x)%N as [->|?] by lia.
  - by rewrite pretty_N_go_0.
  - rewrite pretty_N_go_step by done. rewrite IH by (by apply N.div_lt).
    simpl. unfold pretty_N_char. by repeat case_match.
Qed.

Lemma pretty_Z_no_dot (z : Z) : str_contains "."%char (pretty z) = false.
Proof.
  assert (HN : ∀ x : N, str_contains "."%char (pretty x) = false).
  { intros x. unfold pretty, pretty_N. case_decide; [done |].
    by rewrite pretty_N_go_no_dot. }
  destruct z as [|p|p]; [done | apply HN |].
  unfold pretty, pretty_Z. rewrite str_contains_app. simpl. apply HN.
Qed.

Lemma append_dot_inj s s' : s +:+ "." = s' +:+ "." → s = s'.
Proof.
  revert s'. induction s as [|c s IH]; intros [|c' s']; simpl; try done.
  - intros [= _ E]. by destruct s'.
  - intros [= _ E]. by destruct s.
  - intros [= -> E]. f_equal. by apply IH.
Qed.

Lemma numbered_has_id n : Forall has_id (numbered n).
Proof.
  unfold numbered. apply Forall_forall. intros d Hd%list_elem_of_In.
  apply in_map_iff in Hd as (i & <- & _).
  unfold has_id. by rewrite lookup_singleton_eq.
Qed.

Lemma length_numbered n : length (numbered n) = n.
Proof. unfold numbered. by rewrite length_map, length_seq. Qed.

Lemma numbered_keys_NoDup n : NoDup (keys (map bulk_doc (numbered n))).
Proof.
  rewrite keys_bulk_doc. unfold numbered. rewrite map_map.
  generalize (seq_NoDup n 0). generalize (seq 0 n). intros l.
  induction 1 as [|i l Hi Hnd IH]; simpl; [constructor |].
  constructor; [|done]. rewrite list_elem_of_In, in_map_iff.
  intros (j & Hj & Hin). apply Hi. apply list_elem_of_In.
  rewrite !lookup_singleton_eq in Hj. simpl in Hj.
  unfold pre_process_id in Hj. simpl in Hj.
  rewrite !pretty_Z_no_dot in Hj. simpl in Hj.
  apply append_dot_inj, (inj pretty), Nat2Z.inj in Hj. by subst.
Qed.
End BulkUpsertComplete.

Lemma bulk_upsert_complete_witness :
  ∃ w',
    @bulk_upsert sample_repr 7 test_namespace 5 1001 (numbered 1000) empty_world
    = (Ok Returned, w')
    ∧ length (stored "test_db" "test_collection" w') = 1000%nat
    ∧ length (meta_collection w') = 1000%nat.
Proof.
  destruct (@bulk_upsert_complete sample_repr 7 test_namespace "test_db"
              "test_collection" 5 1001 (numbered 1000) empty_world)
    as (_ & _ & _ & _ & _ & w' & Hrun & _ & _ & Hfresh).
  - lia.
  - reflexivity.
  - discriminate.
  - discriminate.
  - apply numbered_has_id.
  - rewrite length_numbered. lia.
  - exists w'.
    destruct (Hfresh (numbered_keys_NoDup 1000) eq_refl eq_refl)
      as (_ & _ & Hdocs & Hmeta).
    rewrite length_numbered in Hdocs, Hmeta.
    exact (conj Hrun (conj Hdocs Hmeta)).
Defined.


(** The same thousand documents with a batch size that divides their
    number. *)
Example bulk_upsert_thousand_by_250 :
  (@bulk_upsert sample_repr 250 test_namespace 5 1001 (numbered 1000)
     empty_world).1 = Ok Returned
  ∧ length (stored "test_db" "test_collection"
              (run (@bulk_upsert sample_repr 250 test_namespace 5 1001
                      (numbered 1000)) empty_world)) = 1000%nat
  ∧ length (chunked 1001 250 (numbered 1000)) = 4%nat.
Proof.
  unfold run.
  rewrite (@bulk_upsert_run sample_repr 250 test_namespace "test_db"
             "test_collection");
    [| lia | reflexivity | discriminate | discriminate
     | apply numbered_has_id | rewrite length_numbered; lia ].
  split; [reflexivity | split].
  - destruct (@bulk_imported_fresh sample_repr test_namespace "test_db"
                "test_collection" 5 (numbered 1000) empty_world
                (numbered_keys_NoDup 1000) eq_refl eq_refl) as [E _].
    cbn [snd]. rewrite E, length_map. apply length_numbered.
  - rewrite chunked_count; [| lia | rewrite length_numbered; lia].
    rewrite length_numbered. reflexivity.
Qed.
(** * Further properties *)

(** ** Namespaces and keys *)

Section Naming.
Context `{PyRepr}.

(** X1.  [_db_and_collection] cuts a namespace at its first ['.']: it returns
    the two parts [db] and [coll] exactly when the namespace is [db], a
    ['.'] and [coll] with no ['.'] in [db]; a namespace without ['.'] comes
    back as the one element of the list. *)
Theorem db_and_collection_round_trip (ns db coll : string) :
  (_db_and_collection ns = [db; coll]
   ↔ ns = db +:+ "." +:+ coll ∧ ¬ In "."%char (chars db))
  ∧ (_db_and_collection ns = [ns] ↔ ¬ In "."%char (chars ns))
  ∧ (length (_db_and_collection ns) = 1 ∨ length (_db_and_collection ns) = 2)%nat.
Proof.
  unfold _db_and_collection. split_and!.
  - split.
    + intros [-> Hno]%split_once_two. split; [done |].
      rewrite <- str_contains_chars. by rewrite Hno.
    + intros [-> Hno]. apply split_once_join.
      rewrite <- str_contains_chars in Hno. by destruct (str_contains _ db).
  - rewrite <- str_contains_chars.
    destruct (split_once_shape "."%char ns) as [[Hno ->]|(a & b & -> & Hns & Hno)].
    + rewrite Hno. naive_solver.
    + split.
      * intros E. discriminate E.
      * intros Hdot. exfalso. apply Hdot. rewrite Hns, str_contains_app.
        simpl. apply orb_true_r.
  - destruct (split_once_shape "."%char ns) as [[_ ->]|(a & b & -> & _)]; auto.
Qed.

(** X2.  Two source ids get the same key exactly when their string forms are
    equal or differ by one trailing ['.'] after a form without ['.']: the
    encoding is one to one on the ids that hold a ['.'] and on those that do
    not, and it identifies [s] with [s.]. *)
Theorem pre_process_id_collisions (v v' : Value) :
  pre_process_id v = pre_process_id v'
  ↔ py_str v = py_str v'
    ∨ (¬ In "."%char (chars (py_str v)) ∧ py_str v' = py_str v +:+ ".")
    ∨ (¬ In "."%char (chars (py_str v')) ∧ py_str v = py_str v' +:+ ".").
Proof.
  unfold pre_process_id. cbv zeta. rewrite <- !str_contains_chars.
  destruct (str_contains "." (py_str v)) eqn:E;
    destruct (str_contains "." (py_str v')) eqn:E'; simpl.
  - split; [by left |]. intros [?|[[? _]|[? _]]]; done.
  - split.
    + intros Heq. right. right. done.
    + intros [Heq|[[? _]|[_ ?]]]; [|done..]. rewrite Heq in E. congruence.
  - split.
    + intros Heq. right. left. done.
    + intros [Heq|[[_ ?]|[? _]]]; [|done..]. rewrite Heq in E. congruence.
  - split.
    + intros Heq%append_dot_inj. by left.
    + intros [->|[[_ Heq]|[_ Heq]]]; [done | |].
      * rewrite Heq, str_contains_app in E'. simpl in E'.
        by rewrite orb_true_r in E'.
      * rewrite Heq, str_contains_app in E. simpl in E.
        by rewrite orb_true_r in E.
Qed.

(** X3.  [update], [remove] and [upsert] take the encoded key for the id: the
    key of a key is the key, so a call with the key on the place of the id
    does what the call with the id does. *)
Theorem encoded_key_as_id (id : Value) (spec doc : Doc) (ns : string) (t : Z)
  (w : World) :
  update (VStr (pre_process_id id)) spec ns t w = update id spec ns t w
  ∧ remove (VStr (pre_process_id id)) ns t w = remove id ns t w
  ∧ (doc !! "_id" = Some id →
     (upsert (<["_id" := VStr (pre_process_id id)]> doc) ns t w).1
     = (upsert doc ns t w).1
     ∧ (upsert (<["_id" := VStr (pre_process_id id)]> doc) ns t w).2.2
       = (upsert doc ns t w).2.2).
Proof.
  split_and!.
  - unfold update. by rewrite pre_process_id_encoded.
  - unfold remove. by rewrite pre_process_id_encoded.
  - intros Hid.
    destruct (split_once_shape "."%char ns) as [[_ Hns]|(db & coll & Hns & _)].
    { by rewrite !upsert_malformed_namespace. }
    rewrite !(upsert_unfold ns db coll) by done. unfold upsert_outcome.
    rewrite lookup_insert_eq, Hid, pre_process_id_encoded, delete_insert_eq.
    destruct (coll_has _ _ && negb _); [done |].
    by destruct (collection_of db coll _).
Qed.
End Naming.

Lemma encoded_key_as_id_witness :
  (@upsert sample_repr (<["_id" := VStr "111a."]> john) test_namespace 5
     empty_world).2.2 = world_john.
Proof.
  exact (proj2 (proj2 (proj2 (@encoded_key_as_id sample_repr (VStr "111a") ∅
                                 john test_namespace 5 empty_world)) eq_refl)).
Defined.

(** ** Connection set-up *)

Lemma split_all_none sep s : str_contains sep s = false → split_all sep s = [s].
Proof.
  induction s as [|c s IH]; simpl; [done |].
  destruct (Ascii.eqb c sep); [done |]. intros Hno. by rewrite IH.
Qed.

Lemma split_all_first sep a b :
  str_contains sep a = false →
  split_all sep (a +:+ String sep b) = a :: split_all sep b.
Proof.
  induction a as [|c a IH]; simpl.
  - by rewrite Ascii.eqb_refl.
  - destruct (Ascii.eqb c sep); [done |]. intros Hno. by rewrite IH.
Qed.

Lemma str_contains_cut sep s :
  str_contains sep s = true →
  ∃ a b, s = a +:+ String sep b ∧ str_contains sep a = false.
Proof.
  intros Hs. destruct (split_once_shape sep s) as [[Hno _]|(a & b & _ & -> & Hno)].
  - congruence.
  - by exists a, b.
Qed.

Lemma split_all_head sep s : ∃ hd tl, split_all sep s = hd :: tl.
Proof.
  induction s as [|c s (hd & tl & IH)]; simpl; [by eexists _, _ |].
  destruct (Ascii.eqb c sep); [by eexists _, _ |]. rewrite IH. by eexists _, _.
Qed.

Lemma append_empty s : s +:+ EmptyString = s.
Proof.
  induction s as [|c s IH]; [done |].
  change (String c (s +:+ EmptyString) = String c s). by rewrite IH.
Qed.

Section ConnectionFacts.
Context `{PyInt}.
Variable verify : ArangoClient → bool.

(** X4.  [get_host_port] raises [IndexError] exactly for an address without
    [':'].  Otherwise the host is the text before the first [':'] and the
    port is [int] of the text between the first [':'] and the next one, or
    the end; what follows a second [':'] is not looked at. *)
Theorem get_host_port_parts (address : string) :
  (get_host_port address = inl IndexError ↔ ¬ In ":"%char (chars address))
  ∧ (∀ host port rest,
       ¬ In ":"%char (chars host) → ¬ In ":"%char (chars port) →
       rest = EmptyString ∨ (∃ more, rest = String ":"%char more) →
       address = host +:+ ":" +:+ port +:+ rest →
       get_host_port address
       = match py_int port with
         | Some number => inr (host, number)
         | None => inl PortValueError
         end).
Proof.
  split.
  - rewrite <- str_contains_chars. unfold get_host_port. split.
    + destruct (str_contains ":" address) eqn:E; [|done].
      apply str_contains_cut in E as (a & b & -> & Hno).
      rewrite split_all_first by done.
      destruct (split_all_head ":"%char b) as (hd & tl & ->).
      by destruct (py_int hd).
    + intros Hno. rewrite split_all_none; [done |].
      by destruct (str_contains ":" address).
  - intros host port rest Hhost Hport Hrest ->.
    rewrite <- str_contains_chars in Hhost, Hport.
    unfold get_host_port.
    change (host +:+ ":" +:+ port +:+ rest)
      with (host +:+ String ":"%char (port +:+ rest)).
    rewrite split_all_first by (by destruct (str_contains _ host)).
    assert (Hp : str_contains ":" port = false)
      by (by destruct (str_contains _ port)).
    destruct Hrest as [->|[more ->]].
    + rewrite append_empty. by rewrite split_all_none.
    + by rewrite split_all_first.
Qed.

(** X5.  With an address that parses, [create_connection] refuses the
    credentials exactly when one of the user name and the password is set
    and the other is not, an empty string counting as not set, and it does
    so without trying the server.  A client it returns has passed [verify],
    has the host and the port of the address, and carries both credentials
    or none.  The fall through the three branches does not happen. *)
Theorem create_connection_credentials (url host : string) (port : Z)
  (username password : option string) :
  get_host_port url = inr (host, port) →
  (create_connection verify url username password = inl InvalidCredentials
   ↔ set_in_env username ≠ set_in_env password)
  ∧ (∀ client,
       create_connection verify url username password = inr client →
       verify client = true
       ∧ client_host client = host ∧ client_port client = port
       ∧ ((set_in_env username = false ∧ set_in_env password = false
           ∧ client_username client = None ∧ client_password client = None)
          ∨ (set_in_env username = true ∧ set_in_env password = true
             ∧ client_username client = username
             ∧ client_password client = password)))
  ∧ create_connection verify url username password ≠ inl UnboundLocalError.
Proof.
  intros Hurl. unfold create_connection, verify_connection. rewrite Hurl.
  destruct (set_in_env username), (set_in_env password); simpl;
    repeat match goal with
           | |- context [verify ?c] => destruct (verify c) eqn:?
           end;
    split_and!; try done; try (split; congruence);
    intros client [= <-]; simpl; split_and!; try done; auto 10.
Qed.
End ConnectionFacts.

Lemma get_host_port_parts_witness :
  @get_host_port sample_int "localhost:8529" = inr ("localhost", 8529).
Proof.
  apply (proj2 (@get_host_port_parts sample_int "localhost:8529")
           "localhost" "8529" EmptyString).
  - vm_compute. intros [E|[E|[E|[E|[E|[E|[E|[E|[E|[]]]]]]]]]]; discriminate E.
  - vm_compute. intros [E|[E|[E|[E|[]]]]]; discriminate E.
  - by left.
  - reflexivity.
Defined.

Lemma create_connection_credentials_witness :
  @create_connection sample_int (λ _, true) "localhost:8529" (Some "root") None
  = inl InvalidCredentials.
Proof.
  apply (proj1 (@create_connection_credentials sample_int (λ _, true)
                  "localhost:8529" "localhost" 8529 (Some "root") None
                  eq_refl)).
  discriminate.
Defined.

(** ** Commands *)

Section CommandEffects.
Context `{PyRepr}.

Lemma map_collection_of db name :
  str_contains "."%char db = false → map_collection db name = [db; name].
Proof. intros Hno. unfold map_collection, map_namespace. by apply split_once_join. Qed.

(** X7.  The command [dropDatabase] deletes the database that the namespace
    names, with all its collections, and leaves every other database as it
    is.  When that database does not exist the client's
    [DatabaseDeleteError] comes out as it is, not as [OperationFailed], and
    nothing has changed. *)
Theorem handle_command_drop_database ns db coll (flag : Value) ts w :
  _db_and_collection ns = [db; coll] →
  truthy (Some flag) = true →
  (is_Some (databases w !! db) →
   ∃ w', handle_command {[ "dropDatabase" := flag ]} ns ts w = (Ok tt, w')
         ∧ databases w' = delete db (databases w)
         ∧ (∀ c, collection_of db c w' = None)
         ∧ (∀ db' c, db' ≠ db → collection_of db' c w' = collection_of db' c w))
  ∧ (databases w !! db = None →
     handle_command {[ "dropDatabase" := flag ]} ns ts w
     = (Raise DatabaseDeleteError, w)).
Proof.
  intros Hns Hflag.
  assert (Hrun : handle_command {[ "dropDatabase" := flag ]} ns ts w
                 = if bool_decide (db ∈ dom (databases w))
                   then (Ok tt, set_databases (delete db) w)
                   else (Raise DatabaseDeleteError, w)).
  { unfold handle_command, wrap_exceptions, bind. rewrite Hns. simpl.
    rewrite lookup_singleton_eq, Hflag. simpl.
    unfold delete_database, arango_databases, bind, gets, modify, raise. simpl.
    case_bool_decide; simpl; [|done].
    by rewrite !lookup_singleton_ne by done. }
  rewrite Hrun. split.
  - intros Hdb. rewrite bool_decide_eq_true_2 by (by apply elem_of_dom).
    eexists. split_and!; [done | done | |].
    + intros c. unfold collection_of. simpl. by rewrite lookup_delete_eq.
    + intros db' c Hne. unfold collection_of. simpl.
      by rewrite lookup_delete_ne.
  - intros Hdb. by rewrite bool_decide_eq_false_2 by (by apply not_elem_of_dom).
Qed.

(** X8.  The command [drop] deletes the collection it names in the database
    of the namespace, whatever collection the namespace itself names: the
    documents are gone and every other collection is as before.  When the
    collection does not exist the client's [CollectionDeleteError] comes out
    and nothing has changed. *)
Theorem handle_command_drop ns db coll name ts w :
  _db_and_collection ns = [db; coll] →
  name ≠ EmptyString →
  (is_Some (collection_of db name w) →
   ∃ w', handle_command {[ "drop" := VStr name ]} ns ts w = (Ok tt, w')
         ∧ collection_of db name w' = None
         ∧ (∀ db' c, (db', c) ≠ (db, name) →
                     collection_of db' c w' = collection_of db' c w))
  ∧ (collection_of db name w = None →
     handle_command {[ "drop" := VStr name ]} ns ts w
     = (Raise CollectionDeleteError, w)).
Proof.
  intros Hns Hname%nonempty_true.
  pose proof (namespace_parts _ _ _ Hns) as [_ Hdb].
  assert (Hrun : handle_command {[ "drop" := VStr name ]} ns ts w
                 = match collection_of db name w with
                   | Some _ => (Ok tt, set_databases (alter (delete name) db) w)
                   | None => (Raise CollectionDeleteError, w)
                   end).
  { unfold handle_command, wrap_exceptions, bind. rewrite Hns. simpl.
    rewrite !lookup_singleton_ne by done. simpl.
    rewrite lookup_singleton_eq. simpl. fold (nonempty name). rewrite Hname.
    simpl. rewrite map_collection_of by done. simpl.
    unfold delete_collection, bind, gets, modify, raise. simpl.
    by destruct (collection_of db name w). }
  rewrite Hrun. split.
  - intros [docs Hc]. rewrite Hc. eexists. split_and!; [done | |].
    + unfold collection_of in *. simpl.
      destruct (databases w !! db) as [colls|] eqn:E; [|done].
      rewrite lookup_alter_eq, E. simpl. apply lookup_delete_eq.
    + intros db' c Hne. unfold collection_of. simpl.
      destruct (decide (db' = db)) as [->|Hdb'].
      * rewrite lookup_alter_eq. destruct (databases w !! db); simpl; [|done].
        rewrite lookup_delete_ne; [done | congruence].
      * by rewrite lookup_alter_ne.
  - intros Hc. by rewrite Hc.
Qed.
End CommandEffects.

Lemma handle_command_drop_database_witness :
  handle_command {[ "dropDatabase" := VInt 1 ]} test_namespace 5 empty_world
  = (Raise DatabaseDeleteError, empty_world).
Proof.
  apply (proj2 (handle_command_drop_database test_namespace "test_db"
                  "test_collection" (VInt 1) 5 empty_world eq_refl eq_refl)).
  reflexivity.
Defined.

Lemma handle_command_drop_witness :
  ∃ w', handle_command {[ "drop" := VStr "test_collection" ]} "test_db.other" 5
          world_john = (Ok tt, w')
        ∧ collection_of "test_db" "test_collection" w' = None.
Proof.
  destruct (proj1 (handle_command_drop "test_db.other" "test_db" "other"
                     "test_collection" 5 world_john eq_refl
                     ltac:(discriminate)))
    as (w' & Hrun & Hgone & _).
  - by eexists.
  - by exists w'.
Defined.

Section CommandRename.

Lemma ns_of_nonempty db coll : nonempty (ns_of db coll) = true.
Proof. unfold ns_of. by destruct db. Qed.

Lemma ns_of_parts db coll :
  ¬ In "."%char (chars db) → _db_and_collection (ns_of db coll) = [db; coll].
Proof.
  rewrite <- str_contains_chars. intros Hno. apply split_once_join.
  by destruct (str_contains _ db).
Qed.

(** X9.  The command [renameCollection] renames inside the database of the
    source namespace and takes from the target namespace its collection part
    only: the documents move to that name in the source database, also when
    the target namespace names another database, which is left as it is. *)
Theorem handle_command_rename ns db coll sdb scoll tdb tcoll docs ts w :
  _db_and_collection ns = [db; coll] →
  ¬ In "."%char (chars sdb) → ¬ In "."%char (chars tdb) →
  tcoll ≠ EmptyString →
  collection_of sdb scoll w = Some docs →
  collection_of sdb tcoll w = None →
  ∃ w',
    handle_command {[ "renameCollection" := VStr (ns_of sdb scoll);
                      "to" := VStr (ns_of tdb tcoll) ]} ns ts w = (Ok tt, w')
    ∧ collection_of sdb tcoll w' = Some docs
    ∧ collection_of sdb scoll w' = None
    ∧ (∀ db' c, db' ≠ sdb → collection_of db' c w' = collection_of db' c w)
    ∧ (∀ c, c ≠ scoll → c ≠ tcoll →
            collection_of sdb c w' = collection_of sdb c w).
Proof.
  intros Hns Hsdb Htdb Htcoll%nonempty_true Hsrc Htgt.
  assert (Hne : scoll ≠ tcoll) by (intros ->; congruence).
  exists (set_databases
            (alter (λ colls, <[tcoll:=docs]> (delete scoll colls)) sdb) w).
  split_and!.
  - unfold handle_command, wrap_exceptions, bind. rewrite Hns. simpl.
    rewrite lookup_insert_ne by done. rewrite lookup_singleton_ne by done.
    simpl. rewrite lookup_insert_eq. simpl.
    fold (nonempty (ns_of sdb scoll)). rewrite ns_of_nonempty. simpl.
    unfold map_namespace. rewrite (ns_of_parts sdb scoll) by done. simpl.
    rewrite lookup_insert_ne by done. rewrite lookup_singleton_eq. simpl.
    rewrite (ns_of_parts tdb tcoll) by done. simpl.
    rewrite ns_of_nonempty, Htcoll. simpl.
    unfold rename, bind, gets, modify, raise. simpl. rewrite Hsrc, Htgt. simpl.
    rewrite !lookup_insert_ne by done. rewrite !lookup_singleton_ne by done.
    done.
  - unfold collection_of in *. simpl.
    destruct (databases w !! sdb) as [colls|] eqn:E; [|done].
    rewrite lookup_alter_eq, E. simpl. apply lookup_insert_eq.
  - unfold collection_of in *. simpl.
    destruct (databases w !! sdb) as [colls|] eqn:E; [|done].
    rewrite lookup_alter_eq, E. simpl. rewrite lookup_insert_ne by done.
    apply lookup_delete_eq.
  - intros db' c Hdb'. unfold collection_of. simpl.
    by rewrite lookup_alter_ne.
  - intros c Hc1 Hc2. unfold collection_of. simpl.
    rewrite lookup_alter_eq. destruct (databases w !! sdb); simpl; [|done].
    rewrite lookup_insert_ne by done. by rewrite lookup_delete_ne.
Qed.
End CommandRename.

Lemma handle_command_rename_witness :
  ∃ w',
    handle_command {[ "renameCollection" := VStr "test_db.test_collection";
                      "to" := VStr "elsewhere.people" ]} test_namespace 5
      world_john = (Ok tt, w')
    ∧ collection_of "test_db" "people" w' = Some [john_stored]
    ∧ collection_of "test_db" "test_collection" w' = None
    ∧ databases w' !! "elsewhere" = None.
Proof.
  destruct (handle_command_rename test_namespace "test_db" "test_collection"
              "test_db" "test_collection" "elsewhere" "people" [john_stored]
              5 world_john)
    as (w' & Hrun & Hnew & Hold & Hother & _).
  - reflexivity.
  - vm_compute. intros [E|[E|[E|[E|[E|[E|[E|[]]]]]]]]; discriminate E.
  - vm_compute. intros [E|[E|[E|[E|[E|[E|[E|[E|[E|[]]]]]]]]]]; discriminate E.
  - discriminate.
  - vm_compute. reflexivity.
  - vm_compute. reflexivity.
  - exists w'. split_and!; [exact Hrun | exact Hnew | exact Hold |].
    specialize (Hother "elsewhere" "x" ltac:(discriminate)).
    unfold collection_of in Hother.
    destruct (databases w' !! "elsewhere") as [colls|] eqn:E; [|done].
    exfalso. clear -Hrun E. vm_compute in Hrun. injection Hrun as <-.
    vm_compute in E. discriminate E.
Defined.

(** ** The command [create], and namespaces without a separator *)

Section CommandCreate.
Context `{PyRepr}.

(** Of its namespace, [handle_command] reads the database part only, and it
    does not read its timestamp. *)
Lemma handle_command_database_only doc ns ns' db coll coll' ts ts' :
  _db_and_collection ns = [db; coll] → _db_and_collection ns' = [db; coll'] →
  handle_command doc ns ts = handle_command doc ns' ts'.
Proof.
  intros Hns Hns'. unfold handle_command. by rewrite Hns, Hns'.
Qed.

Lemma after_create_twice db coll w :
  after_create db coll (after_create db coll w) = after_create db coll w.
Proof.
  unfold after_create at 2 3.
  destruct (nonempty coll && nonempty db) eqn:E.
  - eapply after_create_existing, collection_of_with_collection.
  - unfold after_create. by rewrite E.
Qed.

Lemma collection_of_after_create db coll w db' coll' docs :
  collection_of db' coll' w = Some docs →
  collection_of db' coll' (after_create db coll w) = Some docs.
Proof.
  intros Hc. unfold after_create.
  destruct (nonempty coll && nonempty db); [|done].
  destruct (decide ((db', coll') = (db, coll))) as [[= -> ->]|Hne].
  - rewrite collection_of_with_collection. unfold stored. by rewrite Hc.
  - by rewrite collection_of_with_collection_ne.
Qed.

(** X10.  The command [create] takes the database from the namespace and
    the collection from the command.  It never raises, a second run changes
    nothing, and it loses no document: every collection that was there keeps
    its documents, and the named collection is there afterwards, empty when
    it is new. *)
Theorem handle_command_create_idempotent ns db coll name ts w :
  _db_and_collection ns = [db; coll] →
  ∃ w',
    handle_command {[ "create" := VStr name ]} ns ts w = (Ok tt, w')
    ∧ handle_command {[ "create" := VStr name ]} ns ts w' = (Ok tt, w')
    ∧ (∀ db' coll' docs,
         collection_of db' coll' w = Some docs →
         collection_of db' coll' w' = Some docs)
    ∧ (db ≠ EmptyString → name ≠ EmptyString →
       collection_of db name w' = Some (stored db name w))
    ∧ (∀ db' coll', (db', coll') ≠ (db, name) →
         collection_of db' coll' w' = collection_of db' coll' w).
Proof.
  intros Hns. pose proof (namespace_parts _ _ _ Hns) as [_ Hno].
  assert (Hns' : _db_and_collection (ns_of db name) = [db; name])
    by (by apply split_once_join).
  assert (Hrun : ∀ w0, handle_command {[ "create" := VStr name ]} ns ts w0
                       = (Ok tt, after_create db name w0)).
  { intros w0.
    rewrite (handle_command_database_only _ ns (ns_of db name) db coll name ts ts)
      by done.
    by apply handle_command_create. }
  exists (after_create db name w). split_and!.
  - apply Hrun.
  - by rewrite Hrun, after_create_twice.
  - intros db' coll' docs. apply collection_of_after_create.
  - intros Hdb%nonempty_true Hname%nonempty_true. unfold after_create.
    rewrite Hdb, Hname. apply collection_of_with_collection.
  - intros db' coll' Hne. unfold after_create.
    destruct (nonempty name && nonempty db); [|done].
    by apply collection_of_with_collection_ne.
Qed.

(** X11.  A namespace without the separator ['.'] is refused by every entry
    point that takes one: [handle_command], [upsert], [update], [remove] and
    [bulk_upsert] raise [ValueError] at the unpacking of the split, before
    they have written anything; the caller's document is as it was. *)
Theorem namespace_without_separator ns :
  ¬ In "."%char (chars ns) →
  (∀ doc t w, handle_command doc ns t w = (Raise ValueError, w))
  ∧ (∀ doc t w, upsert doc ns t w = (Raise ValueError, (doc, w)))
  ∧ (∀ id spec t w, update id spec ns t w = (Raise ValueError, w))
  ∧ (∀ id t w, remove id ns t w = (Raise ValueError, w))
  ∧ (∀ chunk_size fuel docs t w,
       bulk_upsert chunk_size ns t fuel docs w = (Raise ValueError, w)).
Proof.
  rewrite <- str_contains_chars. intros Hno.
  assert (Hns : _db_and_collection ns = [ns]).
  { destruct (split_once_shape "."%char ns) as [[_ E]|(a & b & _ & E & _)];
      [done |].
    exfalso. apply Hno. rewrite E, str_contains_app.
    apply orb_true_iff. right. reflexivity. }
  split_and!.
  - intros doc t w. unfold handle_command, wrap_exceptions, bind.
    by rewrite Hns.
  - intros doc t w. by apply upsert_malformed_namespace.
  - intros id spec t w. by apply update_malformed_namespace.
  - intros id t w. by apply remove_malformed_namespace.
  - intros chunk_size fuel docs t w.
    unfold bulk_upsert, wrap_exceptions, bind. by rewrite Hns.
Qed.
End CommandCreate.

Lemma namespace_without_separator_witness :
  @upsert sample_repr john "test_db" 5 world_john
  = (Raise ValueError, (john, world_john)).
Proof.
  apply (@namespace_without_separator sample_repr "test_db").
  vm_compute. intros [E|[E|[E|[E|[E|[E|[E|[]]]]]]]]; discriminate E.
Defined.

Lemma handle_command_create_idempotent_witness :
  ∃ w',
    handle_command {[ "create" := VStr "people" ]} test_namespace 5 world_john
    = (Ok tt, w')
    ∧ collection_of "test_db" "people" w' = Some []
    ∧ collection_of "test_db" "test_collection" w' = Some [john_stored].
Proof.
  destruct (handle_command_create_idempotent test_namespace "test_db"
              "test_collection" "people" 5 world_john eq_refl)
    as (w' & Hrun & _ & Hkeep & Hnew & _).
  exists w'. split_and!.
  - exact Hrun.
  - apply Hnew; discriminate.
  - apply Hkeep. vm_compute. reflexivity.
Defined.

(** ** Writes of one document: conflicts, frame and undoing *)

Section CollectionMore.
Context {A : Type} `{Keyed A}.


End CollectionMore.

Lemma stored_after_create_any db coll db' coll' w :
  stored db' coll' (after_create db coll w) = stored db' coll' w.
Proof.
  destruct (decide ((db', coll') = (db, coll))) as [[= -> ->]|Hne].
  - apply stored_after_create.
  - unfold after_create. destruct (nonempty coll && nonempty db); [|done].
    unfold stored. by rewrite collection_of_with_collection_ne.
Qed.

Section SingleWrites.
Context `{PyRepr}.

(** X12.  The metadata collection is keyed by the encoded id alone.  When
    the key's metadata record belongs to another namespace, [upsert] raises
    [OperationFailed] (the insert of the record hits the key): the store has
    at most gained the empty collection of the namespace, no document and no
    record is written, and the caller's document has lost its [_id]. *)
Theorem upsert_key_of_other_namespace ns db coll doc id t m w :
  _db_and_collection ns = [db; coll] →
  doc !! "_id" = Some id →
  NoDup (keys (meta_collection w)) →
  In m (meta_collection w) → m_key m = pre_process_id id → m_ns m ≠ ns →
  ∃ w',
    upsert doc ns t w = (Raise OperationFailed, (delete "_id" doc, w'))
    ∧ w' = after_create db coll w
    ∧ meta_collection w' = meta_collection w
    ∧ (∀ db' coll', stored db' coll' w' = stored db' coll' w)
    ∧ log w' = log w.
Proof.
  intros Hns Hid Hnd Hin Hkey Hother.
  exists (after_create db coll w). split_and!; try done.
  - rewrite (upsert_unfold ns db coll) by done. unfold upsert_outcome.
    rewrite Hid, meta_after_create.
    assert (coll_has (pre_process_id id) (meta_collection w) = true) as ->.
    { apply coll_has_keys. unfold keys. apply in_map_iff. exists m.
      by rewrite key_of_meta. }
    assert (existsb (key_ns_filter (pre_process_id id) ns) (meta_collection w)
            = false) as ->; [|done].
    apply not_true_is_false. intros (m0 & Hin0 & Hm0)%existsb_exists.
    unfold key_ns_filter in Hm0. apply andb_true_iff in Hm0 as [Hk0 Hns0].
    apply String.eqb_eq in Hk0, Hns0.
    pose proof (find_unique (pre_process_id id) _ m Hnd Hin Hkey) as E1.
    pose proof (find_unique (pre_process_id id) _ m0 Hnd Hin0 Hk0) as E2.
    rewrite E1 in E2. injection E2 as ->. done.
  - apply meta_after_create.
  - intros db' coll'. apply stored_after_create_any.
  - apply log_after_create.
Qed.

(** X13.  A successful [upsert] writes under one key and in one collection:
    the log, the metadata records and the documents of every other key, and
    every collection other than that of the namespace are as before. *)
Theorem upsert_frame doc ns t w doc' w' :
  NoDup (keys (meta_collection w)) →
  upsert doc ns t w = (Ok tt, (doc', w')) →
  log w' = log w
  ∧ (∀ k, k ≠ doc_key doc' →
          coll_find (has_key k) (meta_collection w')
          = coll_find (has_key k) (meta_collection w))
  ∧ (∀ db' coll' k, k ≠ doc_key doc' →
          coll_find (has_key k) (stored db' coll' w')
          = coll_find (has_key k) (stored db' coll' w))
  ∧ (∀ db' coll', _db_and_collection ns ≠ [db'; coll'] →
          collection_of db' coll' w' = collection_of db' coll' w).
Proof.
  intros Hnd Hrun.
  apply upsert_ok_inv in Hrun as (db & coll & id & Hns & Hid & _ & Hdoc & ->);
    [|done].
  assert (Hk : doc_key doc' = pre_process_id id)
    by (rewrite Hdoc; apply doc_key_insert).
  split_and!.
  - done.
  - intros k Hne. unfold upserted. simpl.
    apply find_import_one_other.
    + apply has_key_false. rewrite key_of_meta. simpl. congruence.
    + intros y Hy%has_key_true. rewrite key_of_meta in Hy.
      rewrite (key_of_meta y), (key_of_meta (mkMeta _ _ _)). simpl. congruence.
  - intros db' coll' k Hne.
    destruct (decide ((db', coll') = (db, coll))) as [[= -> ->]|Hother].
    + rewrite stored_upserted. apply find_import_one_other.
      * apply has_key_false. rewrite key_of_doc. congruence.
      * intros y Hy%has_key_true. rewrite key_of_doc in Hy.
        rewrite (key_of_doc y), (key_of_doc doc'). congruence.
    + unfold stored. by rewrite collection_of_upserted_ne.
  - intros db' coll' Hne. apply collection_of_upserted_ne. congruence.
Qed.


(** X15.  [remove] deletes the metadata record first and the document
    second, and is not atomic.  Without a record under the key it raises
    [DocumentDeleteError] and changes nothing, so that a document which has
    no record stays where it is.  With a record but no document under the key
    in the collection of the namespace it raises the same error after the
    record is gone: nothing else of the store has changed. *)
Theorem remove_not_atomic ns db coll id t w :
  _db_and_collection ns = [db; coll] →
  let k := pre_process_id id in
  (coll_has k (meta_collection w) = false →
     remove id ns t w = (Raise DocumentDeleteError, w))
  ∧ (coll_has k (meta_collection w) = true →
     coll_has k (stored db coll w) = false →
     ∃ w',
       remove id ns t w = (Raise DocumentDeleteError, w')
       ∧ databases w' = databases w ∧ log w' = log w
       ∧ coll_has k (meta_collection w') = false
       ∧ ∀ k', k' ≠ k →
           coll_find (has_key k') (meta_collection w')
           = coll_find (has_key k') (meta_collection w)).
Proof.
  intros Hns k. rewrite (remove_unfold ns db coll) by done.
  unfold remove_outcome. fold k. split.
  - by intros ->.
  - intros -> Hdoc.
    exists (set_meta (List.filter (λ m, negb (has_key k m))) w). split_and!.
    + unfold stored in Hdoc.
      destruct (collection_of db coll w) as [docs|]; [|done].
      simpl in Hdoc. by rewrite Hdoc.
    + done.
    + done.
    + simpl. apply has_delete.
    + intros k' Hne. simpl. apply find_delete_other.
      intros y Hy%has_key_true. congruence.
Qed.

(** X16.  [update] writes the metadata before it looks for the document.
    When the collection of the namespace does not exist it raises
    [DocumentGetError] with the record of the key already brought to the new
    timestamp; when the collection holds no document under the key and the
    key has no record in the namespace, it returns and has only logged the
    missing document. *)
Theorem update_without_document ns db coll id spec t w :
  _db_and_collection ns = [db; coll] →
  let k := pre_process_id id in
  (collection_of db coll w = None →
     update id spec ns t w = (Raise DocumentGetError, restamped k ns t w)
     ∧ ∀ t0, NoDup (keys (meta_collection w)) →
             In (mkMeta k t0 ns) (meta_collection w) →
             coll_find (has_key k) (meta_collection (restamped k ns t w))
             = [mkMeta k t ns])
  ∧ (∀ docs,
       collection_of db coll w = Some docs → coll_has k docs = false →
       existsb (key_ns_filter k ns) (meta_collection w) = false →
       update id spec ns t w
       = (Ok tt, mkWorld (databases w) (meta_collection w)
                   (log w ++ [missing_message k]))).
Proof.
  intros Hns k. split.
  - intros Hc. split; [by apply (update_no_collection ns db coll) |].
    intros t0 Hnd Hin. unfold restamped.
    assert (existsb (key_ns_filter k ns) (meta_collection w) = true) as ->.
    { apply existsb_exists. exists (mkMeta k t0 ns). split; [done |].
      unfold key_ns_filter. simpl. by rewrite !String.eqb_refl. }
    simpl. apply find_unique.
    + by rewrite keys_put.
    + apply in_put. left. split; [done |]. rewrite key_of_meta. simpl.
      unfold keys. apply in_map_iff. by exists (mkMeta k t0 ns).
    + done.
  - intros docs Hc Hdoc Hrec.
    rewrite (update_unfold ns db coll docs) by done. cbv zeta. fold k.
    rewrite find_absent by (by apply coll_has_absent).
    unfold restamped. by rewrite Hrec.
Qed.
End SingleWrites.

Lemma upsert_key_of_other_namespace_witness :
  ∃ w',
    @upsert sample_repr doc_one "db.b" 7 world_a
    = (Raise OperationFailed, (∅, w'))
    ∧ stored "db" "b" w' = []
    ∧ meta_collection w' = [mkMeta "1." 5 "db.a"].
Proof.
  destruct (@upsert_key_of_other_namespace sample_repr "db.b" "db" "b" doc_one
              (VStr "1") 7 (mkMeta "1." 5 "db.a") world_a)
    as (w' & Hrun & _ & Hmeta & Hdocs & _).
  - reflexivity.
  - reflexivity.
  - vm_compute. apply NoDup_cons. split; [by intros ?%elem_of_nil | apply NoDup_nil_2].
  - vm_compute. by left.
  - reflexivity.
  - discriminate.
  - exists w'. split_and!.
    + exact Hrun.
    + by rewrite Hdocs.
    + by rewrite Hmeta.
Defined.

Lemma upsert_frame_witness :
  log world_ab = []
  ∧ coll_find (has_key "1.") (stored "db" "a" world_ab)
    = coll_find (has_key "1.") (stored "db" "a" world_a).
Proof.
  destruct (@upsert_frame sample_repr doc_two "db.b" 6 world_a
              (@doc_after_upsert sample_repr doc_two "db.b" 6 world_a) world_ab)
    as (Hlog & _ & Hdocs & _).
  - vm_compute. apply NoDup_cons. split; [by intros ?%elem_of_nil | apply NoDup_nil_2].
  - vm_compute. reflexivity.
  - split; [exact Hlog |]. apply Hdocs. discriminate.
Defined.


Lemma remove_not_atomic_witness :
  @remove sample_repr (VStr "9") test_namespace 7 world_john
  = (Raise DocumentDeleteError, world_john)
  ∧ ∃ w',
      @remove sample_repr (VStr "111a") test_namespace 7 world_orphan_record
      = (Raise DocumentDeleteError, w')
      ∧ meta_collection w' = [].
Proof.
  split.
  - apply (@remove_not_atomic sample_repr test_namespace "test_db"
             "test_collection" (VStr "9") 7 world_john eq_refl).
    reflexivity.
  - destruct (@remove_not_atomic sample_repr test_namespace "test_db"
                "test_collection" (VStr "111a") 7 world_orphan_record eq_refl)
      as [_ Hgone].
    destruct Hgone as (w' & Hrun & _ & _ & _ & _); [reflexivity .. |].
    exists w'. split; [exact Hrun |].
    clear -Hrun. vm_compute in Hrun. by injection Hrun as <-.
Defined.

Lemma update_without_document_witness :
  @update sample_repr (VStr "9") (set_city "Pune") test_namespace 7 world_john
  = (Ok tt, mkWorld (databases world_john) (meta_collection world_john)
              [missing_message "9."]).
Proof.
  destruct (@update_without_document sample_repr test_namespace "test_db"
              "test_collection" (VStr "9") (set_city "Pune") 7 world_john
              eq_refl) as [_ Hlog].
  apply (Hlog [john_stored]); reflexivity.
Defined.

(** ** Bulk load: against single upserts, and when it does not complete *)

Section CollectionBulk.
Context {A : Type} `{Keyed A}.



End CollectionBulk.

Lemma take_plus {A} (n m : nat) (l : list A) :
  take (n + m) l = take n l ++ take m (drop n l).
Proof.
  revert l. induction n as [|n IH]; intros l; simpl; [done |].
  destruct l as [|x l]; simpl; [by destruct m | by rewrite IH].
Qed.




Lemma bulk_imported_nothing db coll docs w :
  collection_of db coll w = Some docs → bulk_imported db coll [] [] w = w.
Proof.
  intros Hc. unfold bulk_imported, stored. rewrite Hc. simpl.
  rewrite with_collection_id by done. apply set_meta_same.
Qed.

Section BulkAgainstUpserts.
Context `{PyRepr}.



Section Partial.
Variables (chunk_size : Z) (ns : string) (t : Z).

Lemma fill_chunk_bad range i good bad rest bulk bulk_meta :
  Forall has_id good → bad !! "_id" = None →
  fill_chunk ns t range i (good ++ bad :: rest) bulk bulk_meta =
  if (range <=? length good)%nat
  then Ok (bulk ++ map bulk_doc (take range good),
           bulk_meta ++ map (bulk_meta_of ns t) (take range good),
           drop range good ++ bad :: rest, RangeDone)
  else Raise KeyError.
Proof.
  intros Hids Hbad. revert i good bulk bulk_meta Hids.
  induction range as [|range IH]; intros i good bulk bulk_meta Hids; simpl.
  - by rewrite !app_nil_r.
  - destruct good as [|doc good]; simpl.
    + by rewrite Hbad.
    + apply Forall_cons in Hids as [[id Hid] Hids]. rewrite Hid.
      rewrite IH by done. rewrite <- !app_assoc. simpl. done.
Qed.

(** Before a document without [_id] the generator yields the full chunks
    that come before it, and then raises. *)
Lemma iterate_chunks_bad fuel good bad rest :
  0 < chunk_size → bad !! "_id" = None →
  Forall has_id good → (length good < fuel)%nat →
  ∃ chunks,
    iterate_chunks chunk_size ns t fuel (good ++ bad :: rest)
    = (map (λ ch, (map bulk_doc ch, map (bulk_meta_of ns t) ch)) chunks,
       Raised KeyError)
    ∧ concat chunks
      = take (Z.to_nat chunk_size * (length good / Z.to_nat chunk_size)) good.
Proof.
  intros Hsize Hbad. set (n := Z.to_nat chunk_size).
  assert (Hn : (0 < n)%nat) by lia. revert good.
  induction fuel as [|fuel IH]; intros good Hids Hlen; [lia |].
  simpl. rewrite fill_chunk_bad by done. fold n. simpl.
  destruct (Nat.leb_spec n (length good)) as [Hle|Hlt].
  - destruct (IH (drop n good)) as (chunks & Hrun & Hcat).
    { by apply Forall_drop. }
    { rewrite length_drop. lia. }
    rewrite Hrun. exists (take n good :: chunks). split; [done |].
    simpl. rewrite Hcat, length_drop.
    replace (length good / n)%nat with (S ((length good - n) / n)).
    + by rewrite Nat.mul_succ_r, (Nat.add_comm _ n), take_plus.
    + replace (length good) with ((length good - n) + 1 * n)%nat at 2 by lia.
      rewrite Nat.div_add by lia. lia.
  - exists []. split; [done |].
    by rewrite Nat.div_small, Nat.mul_0_r by done.
Qed.
End Partial.

(** X18.  A document without [_id] stops the bulk load with [KeyError]: the
    documents before it are loaded up to the last full batch, those of the
    batch in which the faulty document comes are not, and nothing after it
    is looked at. *)
Theorem bulk_upsert_document_without_id
  chunk_size ns db coll t fuel good bad rest w :
  0 < chunk_size →
  _db_and_collection ns = [db; coll] →
  db ≠ EmptyString → coll ≠ EmptyString →
  Forall has_id good → bad !! "_id" = None →
  (length good < fuel)%nat →
  let n := Z.to_nat chunk_size in
  let loaded := take (n * (length good / n)) good in
  bulk_upsert chunk_size ns t fuel (good ++ bad :: rest) w
  = (Raise KeyError,
     bulk_imported db coll (map bulk_doc loaded)
       (map (bulk_meta_of ns t) loaded) (after_create db coll w))
  ∧ length loaded = (n * (length good / n))%nat
  ∧ ((length good < n)%nat →
     bulk_upsert chunk_size ns t fuel (good ++ bad :: rest) w
     = (Raise KeyError, after_create db coll w)).
Proof.
  intros Hsize Hns Hdb Hcoll Hids Hbad Hfuel n loaded.
  set (w0 := after_create db coll w).
  assert (Hc : collection_of db coll w0 = Some (stored db coll w)).
  { unfold w0, after_create. apply nonempty_true in Hdb, Hcoll.
    rewrite Hdb, Hcoll. apply collection_of_with_collection. }
  assert (Hrun : bulk_upsert chunk_size ns t fuel (good ++ bad :: rest) w
                 = (Raise KeyError,
                    bulk_imported db coll (map bulk_doc loaded)
                      (map (bulk_meta_of ns t) loaded) w0)).
  { destruct (iterate_chunks_bad chunk_size ns t fuel good bad rest)
      as (chunks & Hgen & Hcat); try done.
    unfold bulk_upsert, wrap_exceptions, bind at 1 2.
    rewrite Hns. simpl.
    rewrite (handle_command_create ns db coll) by done. fold w0.
    rewrite Hgen. unfold bind at 1. erewrite for_each_chunk by done.
    by rewrite Hcat. }
  split_and!.
  - exact Hrun.
  - unfold loaded. rewrite length_take.
    pose proof (Nat.Div0.mul_div_le (length good) n). lia.
  - intros Hshort. rewrite Hrun. f_equal. unfold loaded.
    rewrite Nat.div_small, Nat.mul_0_r by done. simpl.
    by eapply bulk_imported_nothing.
Qed.


Lemma for_each_empty_chunks db coll docs fuel w :
  collection_of db coll w = Some docs →
  for_each (repeat (@nil Doc, @nil Meta) fuel)
    (λ chunk, doc_import_bulk db coll chunk.1 ;; meta_import_bulk chunk.2) w
  = (Ok tt, w).
Proof.
  intros Hc. induction fuel as [|fuel IH]; simpl; [done |].
  unfold bind at 1. rewrite (import_chunk_run db coll docs) by done.
  rewrite (bulk_imported_nothing db coll docs) by done. apply IH.
Qed.

(** X20.  With a batch size of zero or less [bulk_upsert] does not return:
    its generator yields one empty batch after the other without ever
    taking a document, so that, however long it runs, the call is still
    running and the store is as the command [create] left it. *)
Theorem bulk_upsert_batch_size_not_positive chunk_size ns db coll t docs w :
  chunk_size ≤ 0 →
  _db_and_collection ns = [db; coll] →
  db ≠ EmptyString → coll ≠ EmptyString →
  ∀ fuel,
    bulk_upsert chunk_size ns t fuel docs w
    = (Ok Running, after_create db coll w).
Proof.
  intros Hsize Hns Hdb Hcoll fuel.
  set (w0 := after_create db coll w).
  assert (Hc : collection_of db coll w0 = Some (stored db coll w)).
  { unfold w0, after_create. apply nonempty_true in Hdb, Hcoll.
    rewrite Hdb, Hcoll. apply collection_of_with_collection. }
  unfold bulk_upsert, wrap_exceptions, bind at 1 2.
  rewrite Hns. simpl.
  rewrite (handle_command_create ns db coll) by done. fold w0.
  rewrite iterate_chunks_nonpositive by done.
  unfold bind at 1.
  by rewrite (for_each_empty_chunks db coll (stored db coll w)).
Qed.

(** X21.  The two existence checks read the store and leave it as it is.
    [check_if_database_exists] always answers; [check_if_collection_exists]
    answers for a database that exists, and raises [CollectionListError]
    for one that does not, instead of answering no. *)
Theorem existence_checks db coll w :
  (∃ b, check_if_database_exists db w = (Ok b, w)
        ∧ (b = true ↔ is_Some (databases w !! db)))
  ∧ (is_Some (databases w !! db) →
     ∃ b, check_if_collection_exists db coll w = (Ok b, w)
          ∧ (b = true ↔ is_Some (collection_of db coll w)))
  ∧ (databases w !! db = None →
     check_if_collection_exists db coll w = (Raise CollectionListError, w)).
Proof.
  unfold check_if_database_exists, check_if_collection_exists, collections,
    arango_databases, wrap_exceptions, bind, gets, ret, raise, collection_of.
  simpl. split_and!.
  - case_bool_decide as Hdb; eexists; (split; [done |]).
    + split; [|done]. intros _. by apply elem_of_dom.
    + split; [done |]. intros Hin. exfalso. by apply Hdb, elem_of_dom.
  - intros [colls ->]. simpl. eexists. split; [done |].
    rewrite bool_decide_eq_true. apply elem_of_dom.
  - by intros ->.
Qed.
End BulkAgainstUpserts.


Lemma bulk_upsert_document_without_id_witness :
  (@bulk_upsert sample_repr 2 test_namespace 5 9
     (numbered 3 ++ john_stored :: numbered 2) empty_world).1 = Raise KeyError
  ∧ length (stored "test_db" "test_collection"
              (run (@bulk_upsert sample_repr 2 test_namespace 5 9
                      (numbered 3 ++ john_stored :: numbered 2)) empty_world))
    = 2%nat.
Proof.
  destruct (@bulk_upsert_document_without_id sample_repr 2 test_namespace
              "test_db" "test_collection" 5 9 (numbered 3) john_stored
              (numbered 2) empty_world) as (Hrun & _ & _).
  - lia.
  - reflexivity.
  - discriminate.
  - discriminate.
  - apply numbered_has_id.
  - reflexivity.
  - simpl. lia.
  - unfold run. rewrite Hrun. split; [done |]. vm_compute. reflexivity.
Defined.


Lemma bulk_upsert_batch_size_not_positive_witness :
  @bulk_upsert sample_repr 0 test_namespace 5 1000 (numbered 3) empty_world
  = (Ok Running, after_create "test_db" "test_collection" empty_world).
Proof.
  apply (@bulk_upsert_batch_size_not_positive sample_repr 0 test_namespace
           "test_db" "test_collection" 5 (numbered 3) empty_world).
  - lia.
  - reflexivity.
  - discriminate.
  - discriminate.
Defined.

Lemma existence_checks_witness :
  check_if_collection_exists "nowhere" "people" world_john
  = (Raise CollectionListError, world_john).
Proof.
  apply (existence_checks "nowhere" "people" world_john). reflexivity.
Defined.
